(** * An in-memory URL shortener: registry, code generator, handlers

    Shallow embedding of [main.go].  The registry [Store] is a Go
    [map[string]*Link] guarded by one lock; every operation below is the
    body of the corresponding Go function executed while it holds that
    lock, written as a pure function on the registry state.  Clock
    readings ([time.Now().UTC()]) and random draws ([rand.Intn]) are
    inputs. *)

From Stdlib Require Import ZArith NArith Lia Ascii.
From stdpp Require Import gmap strings list fin_maps sorting.

(** ** Byte and string helpers (Go's [strings] package on byte strings) *)

Module Str.

Definition byte (c : ascii) : N := N_of_ascii c.

(** [lo <= c && c <= hi] *)
Definition between (lo hi c : ascii) : bool :=
  ((byte lo <=? byte c) && (byte c <=? byte hi))%N.

Definition eqb (c d : ascii) : bool := Ascii.eqb c d.

Fixpoint isIn (c : ascii) (set : string) : bool :=
  match set with
  | EmptyString => false
  | String d set' => eqb c d || isIn c set'
  end.

Fixpoint HasPrefix (s prefix : string) : bool :=
  match prefix, s with
  | EmptyString, _ => true
  | String p prefix', String c s' => eqb c p && HasPrefix s' prefix'
  | String _ _, EmptyString => false
  end.

Fixpoint take (n : nat) (s : string) : string :=
  match n, s with
  | S n', String c s' => String c (take n' s')
  | _, _ => EmptyString
  end.

Fixpoint drop (n : nat) (s : string) : string :=
  match n, s with
  | S n', String _ s' => drop n' s'
  | _, _ => s
  end.

(** [strings.Index(s, sep)], [None] for -1. *)
Fixpoint Index (s sep : string) : option nat :=
  if HasPrefix s sep then Some 0
  else match s with
       | EmptyString => None
       | String _ s' => S <$> Index s' sep
       end.

(** [strings.LastIndex(s, sep)] for a one-byte [sep], [None] for -1. *)
Fixpoint LastIndexByte (s : string) (c : ascii) : option nat :=
  match s with
  | EmptyString => None
  | String d s' =>
      match LastIndexByte s' c with
      | Some i => Some (S i)
      | None => if eqb d c then Some 0 else None
      end
  end.

(** [strings.Count(s, sep)] for a one-byte [sep]. *)
Fixpoint CountByte (s : string) (c : ascii) : nat :=
  match s with
  | EmptyString => 0
  | String d s' => (if eqb d c then 1 else 0) + CountByte s' c
  end.

Definition HasSuffixByte (s : string) (c : ascii) : bool :=
  match String.length s with
  | 0 => false
  | S n => match String.get n s with Some d => eqb d c | None => false end
  end.

(** [strings.Cut(s, sep)]: the text before and after the first [sep];
    the whole of [s] and the empty string when [sep] does not occur. *)
Definition Cut (s sep : string) : string * string * bool :=
  match Index s sep with
  | Some i => (take i s, drop (i + String.length sep) s, true)
  | None => (s, "", false)
  end.

Definition Contains (s sep : string) : bool :=
  match Index s sep with Some _ => true | None => false end.

Definition lowerByte (c : ascii) : ascii :=
  if between "A" "Z" c then ascii_of_N (byte c + 32) else c.

Fixpoint ToLower (s : string) : string :=
  match s with
  | EmptyString => EmptyString
  | String c s' => String (lowerByte c) (ToLower s')
  end.

Fixpoint forallb (p : ascii -> bool) (s : string) : bool :=
  match s with
  | EmptyString => true
  | String c s' => p c && forallb p s'
  end.

End Str.

(** ** [net/url]: the validator behind [Store.Create]

    [Create] validates its argument with [url.ParseRequestURI], a function
    of Go's standard library, not of this repository.  It is transcribed
    here from [net/url/url.go] (go1.21); [None] stands for a non-nil
    error.  Of the [URL] structure only [RawPath] and [RawFragment]
    (re-encoding hints) are left out; [Create] itself discards the
    structure and looks at the error alone.  Releases after go1.21 are
    stricter on a bracketed host in [parseHost]: they also want an IP
    literal between the brackets. *)

Module url.

Inductive encoding :=
| encodePath
| encodePathSegment
| encodeHost
| encodeZone
| encodeUserPassword
| encodeQueryComponent
| encodeFragment.

Definition is_host_mode (mode : encoding) : bool :=
  match mode with encodeHost | encodeZone => true | _ => false end.

Record Userinfo := mkUserinfo {
  username : string;
  password : string;
  passwordSet : bool
}.

Record URL := mkURL {
  Scheme : string;
  Opaque : string;
  User : option Userinfo;
  Host : string;
  Path : string;
  OmitHost : bool;
  ForceQuery : bool;
  RawQuery : string;
  Fragment : string
}.

(** [func (u *URL) IsAbs() bool { return u.Scheme != "" }] *)
Definition IsAbs (u : URL) : bool := negb (String.eqb (Scheme u) "").

Definition ishex (c : ascii) : bool :=
  Str.between "0" "9" c || Str.between "a" "f" c || Str.between "A" "F" c.

Definition unhex (c : ascii) : N :=
  if Str.between "0" "9" c then Str.byte c - Str.byte "0"
  else if Str.between "a" "f" c then Str.byte c - Str.byte "a" + 10
  else if Str.between "A" "F" c then Str.byte c - Str.byte "A" + 10
  else 0.

(** [unhex(h1)<<4 | unhex(h2)] *)
Definition hexbyte (h1 h2 : ascii) : ascii :=
  ascii_of_N (N.lor (N.shiftl (unhex h1) 4) (unhex h2)).

Definition shouldEscape (c : ascii) (mode : encoding) : bool :=
  if Str.between "a" "z" c || Str.between "A" "Z" c || Str.between "0" "9" c
  then false
  else if is_host_mode mode
          && (Str.isIn c "!$&'()*+,;=:[]<>" || Str.eqb c "034")
  then false
  else if Str.isIn c "-_.~" then false
  else if Str.isIn c "$&+,/:;=?@" then
    match mode with
    | encodePath => Str.eqb c "?"
    | encodePathSegment => Str.isIn c "/;,?"
    | encodeUserPassword => Str.isIn c "@/?:"
    | encodeQueryComponent => true
    | encodeFragment => false
    | encodeHost | encodeZone => true
    end
  else match mode with
       | encodeFragment => negb (Str.isIn c "!()*")
       | _ => true
       end.

(** One pass stands for the two of the source (validate, then decode):
    an error anywhere in [s] makes the whole result an error. *)
Fixpoint unescape (s : string) (mode : encoding) : option string :=
  match s with
  | EmptyString => Some EmptyString
  | String c s1 =>
      if Str.eqb c "%" then
        match s1 with
        | String h1 (String h2 s3) =>
            if negb (ishex h1) || negb (ishex h2) then None
            else if match mode with encodeHost => true | _ => false end
                    && (unhex h1 <? 8)%N
                    && negb (Str.eqb h1 "2" && Str.eqb h2 "5")
            then None
            else if match mode with encodeZone => true | _ => false end
                    && negb (Str.eqb h1 "2" && Str.eqb h2 "5")
                    && negb (Str.eqb (hexbyte h1 h2) " ")
                    && shouldEscape (hexbyte h1 h2) encodeHost
            then None
            else String (hexbyte h1 h2) <$> unescape s3 mode
        | _ => None
        end
      else if Str.eqb c "+" then
        String (match mode with encodeQueryComponent => " "%char | _ => c end)
          <$> unescape s1 mode
      else if is_host_mode mode && (Str.byte c <? 128)%N
              && shouldEscape c encodeHost
      then None
      else String c <$> unescape s1 mode
  end.

Definition stringContainsCTLByte (s : string) : bool :=
  negb (Str.forallb
          (fun b => negb ((Str.byte b <? Str.byte " ")%N
                          || (Str.byte b =? 127)%N)) s).

Fixpoint getScheme_from (rawURL : string) (i : nat) (s : string)
  : option (string * string) :=
  match s with
  | EmptyString => Some ("", rawURL)
  | String c s' =>
      if Str.between "a" "z" c || Str.between "A" "Z" c
      then getScheme_from rawURL (S i) s'
      else if Str.between "0" "9" c || Str.isIn c "+-." then
        match i with
        | 0 => Some ("", rawURL)
        | _ => getScheme_from rawURL (S i) s'
        end
      else if Str.eqb c ":" then
        match i with
        | 0 => None
        | _ => Some (Str.take i rawURL, Str.drop (S i) rawURL)
        end
      else Some ("", rawURL)
  end.

(** [getScheme(rawURL)]: the scheme and the rest, or an error for a
    leading colon. *)
Definition getScheme (rawURL : string) : option (string * string) :=
  getScheme_from rawURL 0 rawURL.

Definition validOptionalPort (port : string) : bool :=
  match port with
  | EmptyString => true
  | String c digits =>
      Str.eqb c ":" && Str.forallb (Str.between "0" "9") digits
  end.

Definition validUserinfo (s : string) : bool :=
  Str.forallb
    (fun r => Str.between "A" "Z" r || Str.between "a" "z" r
              || Str.between "0" "9" r || Str.isIn r "-._:~!$&'()*+,;=%@") s.

Definition parseHost (host : string) : option string :=
  let plain := unescape host encodeHost in
  if Str.HasPrefix host "[" then
    match Str.LastIndexByte host "]" with
    | None => None
    | Some i =>
        if negb (validOptionalPort (Str.drop (S i) host)) then None
        else match Str.Index (Str.take i host) "%25" with
             | Some zone =>
                 host1 ← unescape (Str.take zone host) encodeHost;
                 host2 ← unescape (Str.drop zone (Str.take i host)) encodeZone;
                 host3 ← unescape (Str.drop i host) encodeHost;
                 Some (host1 +:+ host2 +:+ host3)
             | None => plain
             end
    end
  else
    match Str.LastIndexByte host ":" with
    | Some i =>
        if negb (validOptionalPort (Str.drop i host)) then None else plain
    | None => plain
    end.

Definition parseAuthority (authority : string)
  : option (option Userinfo * string) :=
  match Str.LastIndexByte authority "@" with
  | None => host ← parseHost authority; Some (None, host)
  | Some i =>
      host ← parseHost (Str.drop (S i) authority);
      let userinfo := Str.take i authority in
      if negb (validUserinfo userinfo) then None
      else if negb (Str.Contains userinfo ":") then
        u ← unescape userinfo encodeUserPassword;
        Some (Some (mkUserinfo u "" false), host)
      else
        let '(name, pass, _) := Str.Cut userinfo ":" in
        u ← unescape name encodeUserPassword;
        p ← unescape pass encodeUserPassword;
        Some (Some (mkUserinfo u p true), host)
  end.

Definition parse (rawURL : string) (viaRequest : bool) : option URL :=
  if stringContainsCTLByte rawURL then None
  else if String.eqb rawURL "" && viaRequest then None
  else if String.eqb rawURL "*" then
    Some (mkURL "" "" None "" "*" false false "" "")
  else
    '(scheme0, rest0) ← getScheme rawURL;
    let scheme := Str.ToLower scheme0 in
    let has_scheme := negb (String.eqb scheme "") in
    let '(rest, rawQuery, forceQuery) :=
      if Str.HasSuffixByte rest0 "?" && (Str.CountByte rest0 "?" =? 1)
      then (Str.take (String.length rest0 - 1) rest0, "", true)
      else let '(before, after, _) := Str.Cut rest0 "?" in
           (before, after, false) in
    let with_path (user : option Userinfo) (host rest : string)
                  (omitHost : bool) : option URL :=
      path ← unescape rest encodePath;
      Some (mkURL scheme "" user host path omitHost forceQuery rawQuery "") in
    let continue (_ : unit) : option URL :=
      if (has_scheme || negb viaRequest && negb (Str.HasPrefix rest "///"))
         && Str.HasPrefix rest "//"
      then
        let authority0 := Str.drop 2 rest in
        let '(authority, rest') :=
          match Str.Index authority0 "/" with
          | Some i => (Str.take i authority0, Str.drop i authority0)
          | None => (authority0, "")
          end in
        '(user, host) ← parseAuthority authority;
        with_path user host rest' false
      else if has_scheme && Str.HasPrefix rest "/"
      then with_path None "" rest true
      else with_path None "" rest false in
    if negb (Str.HasPrefix rest "/") then
      if has_scheme
      then Some (mkURL scheme rest None "" "" false forceQuery rawQuery "")
      else if viaRequest then None
      else let '(segment, _, _) := Str.Cut rest "/" in
           if Str.Contains segment ":" then None else continue ()
    else continue ().

Definition ParseRequestURI (rawURL : string) : option URL :=
  parse rawURL true.

(** [u.setFragment(f)] *)
Definition setFragment (u : URL) (f : string) : option URL :=
  frag ← unescape f encodeFragment;
  Some (mkURL (Scheme u) (Opaque u) (User u) (Host u) (Path u) (OmitHost u)
              (ForceQuery u) (RawQuery u) frag).

(** [url.Parse], the general parser: it cuts the fragment off first and
    takes relative references too. *)
Definition Parse (rawURL : string) : option URL :=
  let '(u, frag, _) := Str.Cut rawURL "#" in
  url ← parse u false;
  if String.eqb frag "" then Some url else setFragment url frag.

End url.

(** ** Data model of [main.go] *)

(** [int64] arithmetic: Go wraps around on overflow. *)
Definition MaxInt64 : Z := 2 ^ 63 - 1.
Definition MinInt64 : Z := - 2 ^ 63.
Definition wrap64 (z : Z) : Z := (z + 2 ^ 63) mod 2 ^ 64 - 2 ^ 63.

(** [time.Time] after [.UTC()] carries no monotonic reading, so it is an
    instant on the wall clock: a count of nanoseconds.  [time.Duration]
    is a count of nanoseconds too. *)
Definition Time := Z.
Definition Duration := Z.
Bind Scope Z_scope with Time Duration.

(** [t.After(u)]: [t] is strictly later than [u]. *)
Definition After (t u : Time) : bool := (u <? t)%Z.
(** [t.Add(d)] *)
Definition Add (t : Time) (d : Duration) : Time := (t + d)%Z.

Definition DefaultValidityMinutes : Z := 30.
Definition CodeLength : nat := 6.

Definition base62 : list ascii :=
  String.list_ascii_of_string
    "abcdefghijklmnopqrstuvwxyzABCDEFGHIJKLMNOPQRSTUVWXYZ0123456789".

Record Link := mkLink {
  LongURL : string;
  ShortCode : string;
  CreatedAt : Time;
  ExpiresAt : Time;
  Clicks : Z
}.

(** [map[string]*Link]: every pointer stored in the map is allocated by
    [Create] and stored under one key only, so the map of pointers is a
    map of records. *)
Record Store := mkStore {
  data : gmap string Link;
  domain : string
}.

Definition NewStore (domain : string) : Store := mkStore ∅ domain.

(** The two errors of [Create] are [fmt.Errorf] values told apart by
    their message. *)
Definition InvalidURL : string := "invalid url".
Definition CodeConflict : string := "custom code already exists".

Inductive result (A : Type) :=
| Ok (a : A)
| Error (msg : string).
Arguments Ok {A} a.
Arguments Error {A} msg.

(** ** The random source

    [math/rand]: a source is a stream of raw draws and a position in it;
    [Intn n] consumes one draw and answers a number in [[0, n)].  Every
    sequence of answers in [[0, n)] comes from some stream.  ([rand.Intn]
    panics for [n <= 0]; its one call site passes [len(base62)].) *)

Record Rand := mkRand {
  draws : nat -> nat;
  pos : nat
}.

Definition Intn (n : nat) (r : Rand) : nat * Rand :=
  (draws r (pos r) mod n, mkRand (draws r) (S (pos r))).

(** [base62[i]]; the index is always in range (lemma [Intn_base62] below).
    The runes of [base62] are ASCII, so [string(b)] has one byte per rune. *)
Definition base62_at (i : nat) : ascii := nth i base62 "a"%char.

Fixpoint generateCode (n : nat) (r : Rand) : string * Rand :=
  match n with
  | 0 => (EmptyString, r)
  | S n' =>
      let '(i, r1) := Intn (length base62) r in
      let '(rest, r2) := generateCode n' r1 in
      (String (base62_at i) rest, r2)
  end.

(** ** The registry *)

(** The loop [for { code = generateCode(CodeLength); if !exists { break } }]
    run for at most [fuel] iterations; [None] when it is still running. *)
Fixpoint uniqueCode (fuel : nat) (m : gmap string Link) (r : Rand)
  : option (string * Rand) :=
  match fuel with
  | 0 => None
  | S fuel' =>
      let '(code, r') := generateCode CodeLength r in
      match m !! code with
      | None => Some (code, r')
      | Some _ => uniqueCode fuel' m r'
      end
  end.

(** [Create]: [now] is the clock reading taken after the code is chosen.
    [None] only when the generation loop has not ended within [fuel]
    iterations. *)
Definition Create (fuel : nat) (s : Store) (longURL custom : string)
    (validity : Duration) (now : Time) (r : Rand)
  : option (result Link * Store * Rand) :=
  match url.ParseRequestURI longURL with
  | None => Some (Error InvalidURL, s, r)
  | Some _ =>
      let store_link (code : string) (r' : Rand) :=
        let l := mkLink longURL code now (Add now validity) 0 in
        Some (Ok l, mkStore (<[code := l]> (data s)) (domain s), r') in
      if negb (String.eqb custom "") then
        match data s !! custom with
        | Some _ => Some (Error CodeConflict, s, r)
        | None => store_link custom r
        end
      else
        match uniqueCode fuel (data s) r with
        | None => None
        | Some (code, r') => store_link code r'
        end
  end.

(** [Get]: [Some l] for [(l, true)], [None] for [(nil, false)]. *)
Definition Get (s : Store) (code : string) : option Link := data s !! code.

Definition Increment (s : Store) (code : string) : Store :=
  match data s !! code with
  | Some l =>
      let l' := mkLink (LongURL l) (ShortCode l) (CreatedAt l) (ExpiresAt l)
                       (wrap64 (Clicks l + 1)) in
      mkStore (<[code := l']> (data s)) (domain s)
  | None => s
  end.

(** The [for k, v := range s.data] loop of [CleanupExpired] over the
    entries in the order the runtime yields them.  Only the entry being
    visited is ever deleted, so each entry is visited once. *)
Definition sweep_entries (now : Time) (entries : list (string * Link))
    (m : gmap string Link) : gmap string Link :=
  foldl (fun acc '(k, v) => if After now (ExpiresAt v) then delete k acc else acc)
        m entries.

(** One round of [CleanupExpired] after its sleep, at clock reading [now]. *)
Definition CleanupExpired_round (now : Time) (s : Store) : Store :=
  mkStore (sweep_entries now (map_to_list (data s)) (data s)) (domain s).

(** [CleanupExpired] for as many rounds as there are clock readings. *)
Definition CleanupExpired (nows : list Time) (s : Store) : Store :=
  foldl (fun acc now => CleanupExpired_round now acc) s nows.

(** ** HTTP handlers *)

(** The handlers only ever encode flat objects: field names with
    string, integer or timestamp values. *)
Inductive JValue :=
| JString (s : string)
| JInt (n : Z)
| JTime (t : Time).

Definition JSON := list (string * JValue).

(** [json.Encode] of a [*Link], by the struct's field tags. *)
Definition Link_json (l : Link) : JSON :=
  [("long_url", JString (LongURL l));
   ("short_code", JString (ShortCode l));
   ("created_at", JTime (CreatedAt l));
   ("expires_at", JTime (ExpiresAt l));
   ("clicks", JInt (Clicks l))].

Definition StatusOK : nat := 200.
Definition StatusFound : nat := 302.
Definition StatusNotFound : nat := 404.
Definition StatusGone : nat := 410.

(** What a handler writes: [writeJSON(w, status, v)] or
    [http.Redirect(w, r, url, status)]. *)
Inductive Response :=
| writeJSON (status : nat) (v : JSON)
| http_Redirect (url : string) (status : nat).

Definition httpError (status : nat) (msg : string) : Response :=
  writeJSON status [("error", JString msg)].

Definition redirectHandler (store : Store) (code : string) (now : Time)
  : Response * Store :=
  match Get store code with
  | None => (httpError StatusNotFound "short link not found", store)
  | Some link =>
      if After now (ExpiresAt link)
      then (httpError StatusGone "short link expired", store)
      else (http_Redirect (LongURL link) StatusFound, Increment store code)
  end.

Definition statsHandler (store : Store) (code : string) : Response :=
  match Get store code with
  | None => httpError StatusNotFound "short link not found"
  | Some link => writeJSON StatusOK (Link_json link)
  end.

Definition status_of (resp : Response) : nat :=
  match resp with
  | writeJSON status _ => status
  | http_Redirect _ status => status
  end.

(** ** The shorten and health handlers *)

Definition StatusCreated : nat := 201.
Definition StatusBadRequest : nat := 400.

(** [time.Minute], in nanoseconds. *)
Definition Minute : Duration := 60000000000.

(** [ShortenRequest] as [json.Decode] leaves it: a field the body does not
    give keeps its zero value.  [ValidityMinute] is an [int], taken as 64
    bits wide (as on amd64 and arm64). *)
Record ShortenRequest := mkShortenRequest {
  URL : string;
  CustomCode : string;
  ValidityMinute : Z
}.

Module ShortenResponse.
Record t := mk {
  ShortURL : string;
  ShortCode : string;
  ExpiresAt : Time;
  LongURL : string
}.

(** [json.Encode] of a [ShortenResponse], by the struct's field tags. *)
Definition json (resp : t) : JSON :=
  [("short_url", JString (ShortURL resp));
   ("short_code", JString (ShortCode resp));
   ("expires_at", JTime (ExpiresAt resp));
   ("long_url", JString (LongURL resp))].
End ShortenResponse.

(** The validity [shortenHandler] passes to [Create]:
    [time.Duration(DefaultValidityMinutes) * time.Minute] is a constant;
    [time.Duration(req.ValidityMinute) * time.Minute] is a product of two
    [int64]. *)
Definition request_validity (req : ShortenRequest) : Duration :=
  if (0 <? ValidityMinute req)%Z
  then wrap64 (ValidityMinute req * Minute)
  else (DefaultValidityMinutes * Minute)%Z.

(** [shortenHandler]: [body] is what [json.NewDecoder(r.Body).Decode(&req)]
    made of the request body, [None] for a decoding error.  The result is
    [None] only when [Create] is still in its generation loop after [fuel]
    iterations. *)
Definition shortenHandler (fuel : nat) (store : Store)
    (body : option ShortenRequest) (now : Time) (r : Rand)
  : option (Response * Store * Rand) :=
  match body with
  | None => Some (httpError StatusBadRequest "invalid json", store, r)
  | Some req =>
      if String.eqb (URL req) ""
      then Some (httpError StatusBadRequest "url is required", store, r)
      else
        match Create fuel store (URL req) (CustomCode req)
                     (request_validity req) now r with
        | None => None
        | Some (Error msg, store', r') =>
            Some (httpError StatusBadRequest msg, store', r')
        | Some (Ok link, store', r') =>
            let resp :=
              ShortenResponse.mk (domain store +:+ "/" +:+ ShortCode link)
                                 (ShortCode link) (ExpiresAt link)
                                 (LongURL link) in
            Some (writeJSON StatusCreated (ShortenResponse.json resp),
                  store', r')
        end
  end.

Definition healthHandler : Response :=
  writeJSON StatusOK [("status", JString "ok")].

(** ** The logging middleware ([middleware-logging.go]) *)

Module middleware.

(** What a handler can do to an [http.ResponseWriter]. *)
Inductive WriterCall :=
| HeaderSet (key value : string)
| WriteHeaderCall (statusCode : nat)
| WriteCall (body : JSON).

(** The [http.ResponseWriter] interface. *)
Class ResponseWriter (W : Type) := {
  HeaderSetOn : string → string → W → W;
  WriteHeader : nat → W → W;
  Write : JSON → W → W
}.

(** A writer that keeps the calls it receives, latest last. *)
#[global] Instance recorder : ResponseWriter (list WriterCall) := {
  HeaderSetOn key value w := w ++ [HeaderSet key value];
  WriteHeader code w := w ++ [WriteHeaderCall code];
  Write body w := w ++ [WriteCall body]
}.

(** [type responseWriter struct { http.ResponseWriter; statusCode int }] *)
Record responseWriter (W : Type) := mkResponseWriter {
  inner : W;
  statusCode : nat
}.
Arguments mkResponseWriter {W} inner statusCode.
Arguments inner {W} _.
Arguments statusCode {W} _.

(** The wrapper overrides [WriteHeader]; [Header] and [Write] are the
    embedded writer's. *)
#[global] Instance responseWriter_writer (W : Type) `{ResponseWriter W}
  : ResponseWriter (responseWriter W) := {
  HeaderSetOn key value rw :=
    mkResponseWriter (HeaderSetOn key value (inner rw)) (statusCode rw);
  WriteHeader code rw := mkResponseWriter (WriteHeader code (inner rw)) code;
  Write body rw := mkResponseWriter (Write body (inner rw)) (statusCode rw)
}.

Definition call {W : Type} `{ResponseWriter W} (c : WriterCall) (w : W) : W :=
  match c with
  | HeaderSet key value => HeaderSetOn key value w
  | WriteHeaderCall code => WriteHeader code w
  | WriteCall body => Write body w
  end.

(** A handler run against a writer: the calls it makes, in order. *)
Definition ServeHTTP {W : Type} `{ResponseWriter W}
    (calls : list WriterCall) (w : W) : W :=
  foldl (λ acc c, call c acc) w calls.

(** The calls of [writeJSON(w, status, v)]. *)
Definition writeJSON_calls (status : nat) (v : JSON) : list WriterCall :=
  [HeaderSet "Content-Type" "application/json";
   WriteHeaderCall status;
   WriteCall v].

Record Request := mkRequest {
  Method : string;
  RequestURI : string;
  RemoteAddr : string
}.

(** The fields of the "incoming request" log entry. *)
Record LogEntry := mkLogEntry {
  log_method : string;
  log_path : string;
  log_status : nat;
  log_duration : Duration;
  log_client : string
}.

(** [t.Sub(u)], which saturates at the ends of [int64]. *)
Definition Sub (t u : Time) : Duration :=
  Z.max MinInt64 (Z.min MaxInt64 (t - u)).

(** [LoggingMiddleware(next)] serving one request: [next] is given by the
    calls it makes on the writer it receives; [start] and [finish] are the
    clock readings of [time.Now()] and of [time.Since(start)]. *)
Definition LoggingMiddleware {W : Type} `{ResponseWriter W}
    (next : list WriterCall) (w : W) (r : Request) (start finish : Time)
  : W * LogEntry :=
  let rw := mkResponseWriter w StatusOK in
  let rw' := ServeHTTP next rw in
  (inner rw',
   mkLogEntry (Method r) (RequestURI r) (statusCode rw')
              (Sub finish start) (RemoteAddr r)).

End middleware.

(** ** Vocabulary of the statements *)

(** Letters and digits, as the alphabet is described. *)
Definition alnum (c : ascii) : bool :=
  Str.between "a" "z" c || Str.between "A" "Z" c || Str.between "0" "9" c.

(** A string of [CodeLength] symbols of [base62]. *)
Definition valid_code (code : string) : Prop :=
  String.length code = CodeLength
  ∧ Forall (λ c, c ∈ base62) (String.list_ascii_of_string code).

(** The source after [k] more draws. *)
Definition skip (k : nat) (r : Rand) : Rand := mkRand (draws r) (pos r + k).

(** The code the [k]-th iteration of the generation loop draws
    (iterations counted from 0): each iteration consumes [CodeLength]
    draws. *)
Definition candidate (r : Rand) (k : nat) : string :=
  (generateCode CodeLength (skip (k * CodeLength) r)).1.

(** The validator takes [s] for a URL with a scheme: [ParseRequestURI]
    succeeds and [IsAbs] holds of the result. *)
Definition parseable_absolute_URI (s : string) : bool :=
  match url.ParseRequestURI s with
  | Some u => url.IsAbs u
  | None => false
  end.

(** A parseable absolute URI, told without the validator: Go's general
    parser [url.Parse] takes [s], and the URL it returns has a scheme. *)
Definition absolute_URI (s : string) : bool :=
  match url.Parse s with
  | Some u => url.IsAbs u
  | None => false
  end.

(** [s] has no scheme: [getScheme] finds none. *)
Definition no_scheme (s : string) : Prop :=
  ∀ scheme rest, url.getScheme s = Some (scheme, rest) → scheme = "".

(** All strings of length [n] over [base62], and a registry holding every
    one of them of length [CodeLength]. *)
Fixpoint all_codes (n : nat) : list string :=
  match n with
  | 0 => [EmptyString]
  | S n' => c ← base62; String c <$> all_codes n'
  end.

Definition full_registry : gmap string Link :=
  list_to_map ((λ code, (code, mkLink "https://example.com" code 0%Z 0%Z 0%Z))
                 <$> all_codes CodeLength).

(** Sample data for the examples. *)
Definition zeros : Rand := mkRand (λ _, 0) 0.

Definition link_abc : Link :=
  mkLink "https://example.com" "abc" 0%Z 100%Z 0%Z.

Definition store_abc : Store :=
  mkStore {[ "abc" := link_abc ]} "http://localhost:8080".

Definition link_old : Link :=
  mkLink "https://example.org/old" "old" 0%Z 10%Z 3%Z.

Definition store_two : Store :=
  mkStore (<[ "old" := link_old ]> {[ "abc" := link_abc ]})
          "http://localhost:8080".

(** A source that draws 0 six times, then 1 six times, and so on: its
    candidates are "aaaaaa", "bbbbbb", ... *)
Definition counting : Rand := mkRand (λ i, i / 6) 0.


(** The registry is well keyed: every record sits under its own short
    code, the code is not empty, and the long URL is one the validator
    accepts. *)
Definition well_keyed (s : Store) : Prop :=
  ∀ code l,
    data s !! code = Some l →
    ShortCode l = code ∧ code ≠ "" ∧ is_Some (url.ParseRequestURI (LongURL l)).

(** The operations that write to the registry, with their inputs. *)
Inductive Op :=
| OpCreate (fuel : nat) (longURL custom : string) (validity : Duration)
           (now : Time)
| OpIncrement (code : string)
| OpRedirect (code : string) (now : Time)
| OpSweep (now : Time).

(** One operation on the registry and the random source.  A [Create] that
    is still in its generation loop has written nothing. *)
Definition apply_op (st : Store * Rand) (o : Op) : Store * Rand :=
  match o with
  | OpCreate fuel longURL custom validity now =>
      match Create fuel st.1 longURL custom validity now st.2 with
      | Some (_, s', r') => (s', r')
      | None => st
      end
  | OpIncrement code => (Increment st.1 code, st.2)
  | OpRedirect code now => ((redirectHandler st.1 code now).2, st.2)
  | OpSweep now => (CleanupExpired_round now st.1, st.2)
  end.

Definition run_ops (ops : list Op) (st : Store * Rand) : Store * Rand :=
  foldl apply_op st ops.

(** Requests for one code, one after the other, at the given clock
    readings: the responses in order and the registry left. *)
Fixpoint redirects (store : Store) (code : string) (nows : list Time)
  : list Response * Store :=
  match nows with
  | [] => ([], store)
  | now :: nows' =>
      let '(resp, store') := redirectHandler store code now in
      let '(resps, store'') := redirects store' code nows' in
      (resp :: resps, store'')
  end.

(** The position of a symbol in [base62] (its length when absent). *)
Fixpoint index_in (c : ascii) (l : list ascii) : nat :=
  match l with
  | [] => 0
  | d :: l' => if Ascii.eqb c d then 0 else S (index_in c l')
  end.

(** A source whose draws spell out [code]. *)
Definition spelling (code : string) : Rand :=
  mkRand (λ i, index_in (nth i (String.list_ascii_of_string code) "a"%char)
                        base62) 0.

(** The code of the last [WriteHeader] among the calls, 200 when there is
    none. *)
Definition last_status (calls : list middleware.WriterCall) : nat :=
  foldl (λ acc c, match c with
                  | middleware.WriteHeaderCall code => code
                  | _ => acc
                  end) StatusOK calls.

(** A scheme made of letters only. *)
Definition letters (s : string) : bool :=
  Str.forallb (λ c, Str.between "a" "z" c || Str.between "A" "Z" c) s.





(** * Properties *)

(** ** The code generator *)

Lemma Intn_lt (n : nat) (r : Rand) : 0 < n → (Intn n r).1 < n.
Proof. intros Hn. simpl. apply Nat.mod_upper_bound. lia. Qed.

Lemma base62_length : length base62 = 62.
Proof. reflexivity. Qed.

(** The index handed to [base62] is always in range. *)
Lemma Intn_base62 (r : Rand) : (Intn (length base62) r).1 < length base62.
Proof. apply Intn_lt. rewrite base62_length. lia. Qed.

Lemma base62_at_elem (i : nat) : i < length base62 → base62_at i ∈ base62.
Proof. intros Hi. apply list_elem_of_In, nth_In, Hi. Qed.

Lemma generateCode_rand (n : nat) (r : Rand) :
  (generateCode n r).2 = skip n r.
Proof.
  revert r. induction n as [|n IH]; intros r; simpl.
  - symmetry. destruct r; unfold skip; simpl; f_equal; lia.
  - specialize (IH (mkRand (draws r) (S (pos r)))).
    destruct (generateCode n _) as [rest r2]. simpl in *. subst r2.
    unfold skip. simpl. f_equal. lia.
Qed.

Lemma generateCode_length (n : nat) (r : Rand) :
  String.length (generateCode n r).1 = n.
Proof.
  revert r. induction n as [|n IH]; intros r; simpl; [done|].
  specialize (IH (mkRand (draws r) (S (pos r)))).
  destruct (generateCode n _) as [rest r2]. simpl in *. by rewrite IH.
Qed.

Lemma generateCode_alphabet (n : nat) (r : Rand) :
  Forall (λ c, c ∈ base62) (String.list_ascii_of_string (generateCode n r).1).
Proof.
  revert r. induction n as [|n IH]; intros r; simpl; [constructor|].
  specialize (IH (mkRand (draws r) (S (pos r)))).
  destruct (generateCode n _) as [rest r2]. simpl in *.
  constructor; [|done].
  apply base62_at_elem, (Intn_base62 r).
Qed.

Lemma generateCode_valid (r : Rand) : valid_code (generateCode CodeLength r).1.
Proof. split; [apply generateCode_length | apply generateCode_alphabet]. Qed.

Lemma candidate_valid (r : Rand) (k : nat) : valid_code (candidate r k).
Proof. apply generateCode_valid. Qed.

Lemma base62_alnum (c : ascii) : c ∈ base62 ↔ alnum c = true.
Proof.
  split.
  - intros Hc. apply list_elem_of_In in Hc. unfold base62 in Hc; simpl in Hc.
    repeat (destruct Hc as [<-|Hc]; [reflexivity|]). destruct Hc.
  - intros Hc. apply list_elem_of_In.
    destruct c as [[] [] [] [] [] [] [] []]; try discriminate Hc;
      vm_compute; tauto.
Qed.

Lemma base62_NoDup : NoDup base62.
Proof. apply (bool_decide_unpack (NoDup base62)). vm_compute. exact I. Qed.

(** C7: every code the generator produces has length exactly 6 and consists
    only of symbols of the 62-symbol alphabet of lower-case letters,
    upper-case letters and digits, whatever the random draws. *)
Theorem generateCode_six_base62 (r : Rand) :
  let code := (generateCode CodeLength r).1 in
  String.length code = 6
  ∧ Forall (λ c, c ∈ base62 ∧ alnum c = true) (String.list_ascii_of_string code)
  ∧ length base62 = 62
  ∧ NoDup base62
  ∧ (∀ c, c ∈ base62 ↔ alnum c = true).
Proof.
  cbv zeta. split; [apply (generateCode_length CodeLength)|].
  split.
  - eapply Forall_impl; [apply generateCode_alphabet|].
    intros c Hc. split; [done | by apply base62_alnum].
  - split; [reflexivity|]. split; [apply base62_NoDup | apply base62_alnum].
Qed.

(** ** The generation loop of [Create] *)

Lemma skip_0 (r : Rand) : skip 0 r = r.
Proof. destruct r; unfold skip; simpl; f_equal; lia. Qed.

Lemma skip_skip (a b : nat) (r : Rand) : skip a (skip b r) = skip (b + a) r.
Proof. unfold skip. simpl. f_equal. lia. Qed.

Lemma candidate_0 (r : Rand) : candidate r 0 = (generateCode CodeLength r).1.
Proof. unfold candidate. by rewrite Nat.mul_0_l, skip_0. Qed.

Lemma candidate_S (r : Rand) (k : nat) :
  candidate (skip CodeLength r) k = candidate r (S k).
Proof. unfold candidate. rewrite skip_skip. repeat f_equal; lia. Qed.

(** One iteration of the loop. *)
Lemma uniqueCode_S (fuel : nat) (m : gmap string Link) (r : Rand) :
  uniqueCode (S fuel) m r =
    match m !! candidate r 0 with
    | None => Some (candidate r 0, skip CodeLength r)
    | Some _ => uniqueCode fuel m (skip CodeLength r)
    end.
Proof.
  rewrite candidate_0, <- generateCode_rand. cbn [uniqueCode].
  by destruct (generateCode CodeLength r).
Qed.

(** The loop stops at the first iteration whose candidate is unused, as
    soon as the fuel reaches it. *)
Lemma uniqueCode_first (k : nat) :
  ∀ (fuel : nat) (m : gmap string Link) (r : Rand),
    (∀ j, j < k → is_Some (m !! candidate r j)) →
    m !! candidate r k = None →
    k < fuel →
    uniqueCode fuel m r = Some (candidate r k, skip (S k * CodeLength) r).
Proof.
  induction k as [|k IH]; intros fuel m r Hused Hfree Hfuel;
    (destruct fuel as [|fuel]; [lia|]); rewrite uniqueCode_S.
  - rewrite Hfree. repeat f_equal; lia.
  - destruct (Hused 0) as [l ->]; [lia|].
    rewrite (IH fuel m (skip CodeLength r)).
    + rewrite candidate_S, skip_skip. repeat f_equal; lia.
    + intros j Hj. rewrite candidate_S. apply Hused. lia.
    + by rewrite candidate_S.
    + lia.
Qed.

(** Whatever the loop returns is an unused code of the right shape. *)
Lemma uniqueCode_sound (fuel : nat) :
  ∀ (m : gmap string Link) (r r' : Rand) (code : string),
    uniqueCode fuel m r = Some (code, r') →
    m !! code = None ∧ valid_code code.
Proof.
  induction fuel as [|fuel IH]; intros m r r' code; [done|].
  rewrite uniqueCode_S.
  destruct (m !! candidate r 0) eqn:Hc.
  - apply IH.
  - intros [= <- <-]. split; [done | apply candidate_valid].
Qed.

(** With every code taken the loop is still running after any number of
    iterations. *)
Lemma uniqueCode_full (m : gmap string Link) :
  (∀ code, valid_code code → is_Some (m !! code)) →
  ∀ (fuel : nat) (r : Rand), uniqueCode fuel m r = None.
Proof.
  intros Hfull fuel. induction fuel as [|fuel IH]; intros r; [done|].
  rewrite uniqueCode_S.
  destruct (Hfull (candidate r 0) (candidate_valid r 0)) as [l ->].
  apply IH.
Qed.

(** Among the first [n] candidates either all are taken or there is a
    first unused one. *)
Lemma first_unused_below (m : gmap string Link) (r : Rand) (n : nat) :
  (∀ j, j < n → is_Some (m !! candidate r j))
  ∨ (∃ k0, k0 < n ∧ m !! candidate r k0 = None
           ∧ ∀ j, j < k0 → is_Some (m !! candidate r j)).
Proof.
  induction n as [|n [IH|IH]].
  - left. intros j Hj. lia.
  - destruct (m !! candidate r n) eqn:E.
    + left. intros j Hj. destruct (decide (j = n)) as [->|Hne].
      * rewrite E. eauto.
      * apply IH. lia.
    + right. exists n. split; [lia|]. split; [done|]. exact IH.
  - right. destruct IH as (k0 & Hlt & Hfree & Hbefore).
    exists k0. split; [lia|]. split; [done|]. exact Hbefore.
Qed.

(** The first unused candidate of a stream that has one. *)
Lemma first_unused (m : gmap string Link) (r : Rand) (k : nat) :
  m !! candidate r k = None →
  ∃ k0, k0 ≤ k ∧ m !! candidate r k0 = None
        ∧ ∀ j, j < k0 → is_Some (m !! candidate r j).
Proof.
  intros Hfree.
  destruct (first_unused_below m r (S k)) as [Hall|(k0 & Hlt & H0 & Hbefore)].
  - destruct (Hall k) as [l Hl]; [lia|]. congruence.
  - exists k0. split; [lia|]. split; [done|]. exact Hbefore.
Qed.

(** ** [Create], path by path *)

Lemma Create_invalid (fuel : nat) (s : Store) (longURL custom : string)
    (validity : Duration) (now : Time) (r : Rand) :
  url.ParseRequestURI longURL = None →
  Create fuel s longURL custom validity now r = Some (Error InvalidURL, s, r).
Proof. intros H. unfold Create. by rewrite H. Qed.

Lemma Create_custom_taken (fuel : nat) (s : Store) (longURL custom : string)
    (validity : Duration) (now : Time) (r : Rand) :
  is_Some (url.ParseRequestURI longURL) →
  custom ≠ "" →
  is_Some (data s !! custom) →
  Create fuel s longURL custom validity now r = Some (Error CodeConflict, s, r).
Proof.
  intros [u Hu] Hne [l Hl]. unfold Create. rewrite Hu, Hl.
  apply String.eqb_neq in Hne. by rewrite Hne.
Qed.

Lemma Create_custom_fresh (fuel : nat) (s : Store) (longURL custom : string)
    (validity : Duration) (now : Time) (r : Rand) :
  is_Some (url.ParseRequestURI longURL) →
  custom ≠ "" →
  data s !! custom = None →
  let l := mkLink longURL custom now (Add now validity) 0 in
  Create fuel s longURL custom validity now r =
    Some (Ok l, mkStore (<[custom := l]> (data s)) (domain s), r).
Proof.
  intros [u Hu] Hne Hl. unfold Create. rewrite Hu, Hl.
  apply String.eqb_neq in Hne. by rewrite Hne.
Qed.

Lemma Create_generated (fuel : nat) (s : Store) (longURL : string)
    (validity : Duration) (now : Time) (r : Rand) :
  is_Some (url.ParseRequestURI longURL) →
  Create fuel s longURL "" validity now r =
    match uniqueCode fuel (data s) r with
    | None => None
    | Some (code, r') =>
        let l := mkLink longURL code now (Add now validity) 0 in
        Some (Ok l, mkStore (<[code := l]> (data s)) (domain s), r')
    end.
Proof. intros [u Hu]. unfold Create. by rewrite Hu. Qed.

(** Every way [Create] can end. *)
Lemma Create_cases (fuel : nat) (s : Store) (longURL custom : string)
    (validity : Duration) (now : Time) (r : Rand) :
  (url.ParseRequestURI longURL = None
   ∧ Create fuel s longURL custom validity now r = Some (Error InvalidURL, s, r))
  ∨ (is_Some (url.ParseRequestURI longURL)
     ∧ Create fuel s longURL custom validity now r = Some (Error CodeConflict, s, r))
  ∨ (is_Some (url.ParseRequestURI longURL)
     ∧ Create fuel s longURL custom validity now r = None)
  ∨ (is_Some (url.ParseRequestURI longURL)
     ∧ ∃ code r',
         data s !! code = None
         ∧ let l := mkLink longURL code now (Add now validity) 0 in
           Create fuel s longURL custom validity now r =
             Some (Ok l, mkStore (<[code := l]> (data s)) (domain s), r')).
Proof.
  destruct (url.ParseRequestURI longURL) as [u|] eqn:Hu.
  2:{ left. split; [done|]. by apply Create_invalid. }
  right. assert (Hv : is_Some (url.ParseRequestURI longURL)) by (rewrite Hu; eauto).
  rewrite <- Hu.
  destruct (decide (custom = "")) as [->|Hne].
  - rewrite (Create_generated _ _ _ _ _ _ Hv).
    destruct (uniqueCode fuel (data s) r) as [[code r']|] eqn:Hgen.
    + right; right. split; [done|]. exists code, r'.
      split; [|done]. by apply uniqueCode_sound in Hgen as [? _].
    + right; left. done.
  - destruct (data s !! custom) as [l|] eqn:Hl.
    + left. split; [done|]. apply Create_custom_taken; eauto.
    + right; right. split; [done|]. exists custom, r. split; [done|].
      by apply Create_custom_fresh.
Qed.

(** C1 (as amended): with a non-empty custom code that is already present,
    [Create] fails for every registry state, long URL and validity, and
    leaves the registry as it was: with [CodeConflict] when the long URL
    passes validation, and with [InvalidURL] when it does not, since the
    URL is validated first. *)
Theorem Create_custom_code_conflict (fuel : nat) (s : Store)
    (longURL custom : string) (validity : Duration) (now : Time) (r : Rand) :
  custom ≠ "" →
  is_Some (data s !! custom) →
  Create fuel s longURL custom validity now r =
    Some (Error (match url.ParseRequestURI longURL with
                 | Some _ => CodeConflict
                 | None => InvalidURL
                 end), s, r).
Proof.
  intros Hne Htaken.
  destruct (url.ParseRequestURI longURL) as [u|] eqn:Hu.
  - apply Create_custom_taken; [rewrite Hu; eauto | done | done].
  - by apply Create_invalid.
Qed.

Lemma Create_custom_code_conflict_witness :
  data store_abc !! "abc" = Some link_abc
  ∧ Create 0 store_abc "https://example.org/x" "abc" 60 5 zeros
    = Some (Error CodeConflict, store_abc, zeros).
Proof.
  split; [apply lookup_singleton_eq|].
  apply (Create_custom_code_conflict 0 store_abc "https://example.org/x" "abc").
  - discriminate.
  - exists link_abc. apply lookup_singleton_eq.
Defined.

(** C1, as first stated, fails: the custom code "abc" is present, yet
    [Create] with the long URL "not-a-url" ends with [InvalidURL], not with
    [CodeConflict]. *)
Lemma Create_custom_code_conflict_counterexample :
  data store_abc !! "abc" = Some link_abc
  ∧ Create 0 store_abc "not-a-url" "abc" 60 5 zeros
    = Some (Error InvalidURL, store_abc, zeros)
  ∧ InvalidURL ≠ CodeConflict.
Proof.
  split; [apply lookup_singleton_eq|]. split; [|discriminate].
  by apply Create_invalid.
Qed.

(** C10: whenever [Create] returns an error, the registry is exactly what
    it was before the call (and no random draw has been consumed); the
    error is one of [InvalidURL] and [CodeConflict]. *)
Theorem Create_error_registry_unchanged (fuel : nat) (s s' : Store)
    (longURL custom : string) (validity : Duration) (now : Time)
    (r r' : Rand) (msg : string) :
  Create fuel s longURL custom validity now r = Some (Error msg, s', r') →
  s' = s ∧ r' = r ∧ (msg = InvalidURL ∨ msg = CodeConflict).
Proof.
  intros H.
  destruct (Create_cases fuel s longURL custom validity now r)
    as [[_ E]|[[_ E]|[[_ E]|[_ (code & r1 & _ & E)]]]];
    cbv zeta in E; rewrite E in H; simplify_eq; auto.
Qed.

Lemma Create_error_registry_unchanged_witness :
  Create 0 store_abc "https://example.org/x" "abc" 60 5 zeros
  = Some (Error CodeConflict, store_abc, zeros)
  ∧ (store_abc = store_abc ∧ zeros = zeros
     ∧ (CodeConflict = InvalidURL ∨ CodeConflict = CodeConflict)).
Proof.
  assert (H : Create 0 store_abc "https://example.org/x" "abc" 60 5 zeros
              = Some (Error CodeConflict, store_abc, zeros)).
  { apply Create_custom_taken.
    - vm_compute. eauto.
    - discriminate.
    - exists link_abc. apply lookup_singleton_eq. }
  split; [exact H|].
  exact (Create_error_registry_unchanged 0 store_abc store_abc
           "https://example.org/x" "abc" 60 5 zeros zeros CodeConflict H).
Defined.

(** C4: when [Create] succeeds, [Get] with the short code of the returned
    link, on the registry [Create] left, finds a record (the returned one)
    whose long URL is the URL passed to [Create] and whose click count
    is 0. *)
Theorem Create_then_Get (fuel : nat) (s s' : Store)
    (longURL custom : string) (validity : Duration) (now : Time)
    (r r' : Rand) (l : Link) :
  Create fuel s longURL custom validity now r = Some (Ok l, s', r') →
  ∃ found, Get s' (ShortCode l) = Some found
           ∧ found = l
           ∧ LongURL found = longURL
           ∧ Clicks found = 0%Z.
Proof.
  intros H.
  destruct (Create_cases fuel s longURL custom validity now r)
    as [[_ E]|[[_ E]|[[_ E]|[_ (code & r1 & _ & E)]]]];
    cbv zeta in E; rewrite E in H; simplify_eq.
  eexists. split; [|done]. unfold Get. simpl. apply lookup_insert_eq.
Qed.

Lemma Create_then_Get_witness :
  Create 1 (NewStore "http://localhost:8080") "https://example.com" "" 60 5
         zeros
  = Some (Ok (mkLink "https://example.com" "aaaaaa" 5 65 0),
          mkStore {[ "aaaaaa" := mkLink "https://example.com" "aaaaaa" 5 65 0 ]}
                  "http://localhost:8080",
          mkRand (λ _, 0) 6)
  ∧ ∃ found,
      Get (mkStore {[ "aaaaaa" := mkLink "https://example.com" "aaaaaa" 5 65 0 ]}
                   "http://localhost:8080") "aaaaaa" = Some found
      ∧ found = mkLink "https://example.com" "aaaaaa" 5 65 0
      ∧ LongURL found = "https://example.com"
      ∧ Clicks found = 0%Z.
Proof.
  split; [reflexivity|].
  apply (Create_then_Get 1 (NewStore "http://localhost:8080") _
           "https://example.com" "" 60 5 zeros (mkRand (λ _, 0) 6)
           (mkLink "https://example.com" "aaaaaa" 5 65 0)).
  reflexivity.
Defined.

(** ** A registry with no code left *)

Lemma all_codes_complete (n : nat) :
  ∀ code : string,
    String.length code = n →
    Forall (λ c, c ∈ base62) (String.list_ascii_of_string code) →
    code ∈ all_codes n.
Proof.
  induction n as [|n IH]; intros [|c code] Hlen Hall;
    cbn [String.length] in Hlen; try discriminate Hlen.
  - apply list_elem_of_singleton. done.
  - cbn [String.list_ascii_of_string] in Hall.
    apply Forall_cons in Hall as [Hc Hall].
    cbn [all_codes]. apply list_elem_of_bind. exists c. split; [|done].
    apply list_elem_of_fmap_2. apply IH; [congruence | done].
Qed.

(** A registry built from a list of codes holds each of them. *)
Lemma registry_of_codes_lookup (f : string → Link) (codes : list string)
    (code : string) :
  code ∈ codes →
  is_Some ((list_to_map ((λ c, (c, f c)) <$> codes) : gmap string Link) !! code).
Proof.
  intros Hin. apply not_eq_None_Some. intros E.
  apply not_elem_of_list_to_map_2 in E. destruct E.
  rewrite <- list_fmap_compose.
  by apply (list_elem_of_fmap_2' _ _ code).
Qed.

Lemma full_registry_full (code : string) :
  valid_code code → is_Some (full_registry !! code).
Proof.
  intros [Hlen Hall].
  exact (registry_of_codes_lookup _ (all_codes CodeLength) code
           (all_codes_complete CodeLength code Hlen Hall)).
Qed.

(** C9: with an empty custom code and a long URL that passes validation,
    the generation loop of [Create] ends, and [Create] returns a link under
    a code that was unused, whenever the stream of draws has an iteration
    whose candidate is unused (so at least one 6-symbol base62 string is
    unused): some number of iterations suffices, and every larger number
    gives the same result.  When every 6-symbol base62 string is present,
    the loop is still running after any number of iterations. *)
Theorem Create_generation_loop (s : Store) (longURL : string)
    (validity : Duration) (now : Time) (r : Rand) :
  is_Some (url.ParseRequestURI longURL) →
  ((∃ k, data s !! candidate r k = None) →
   ∃ (n : nat) (l : Link) (s' : Store) (r' : Rand),
     (∀ fuel, n ≤ fuel →
        Create fuel s longURL "" validity now r = Some (Ok l, s', r'))
     ∧ valid_code (ShortCode l)
     ∧ data s !! ShortCode l = None
     ∧ data s' !! ShortCode l = Some l)
  ∧ ((∀ code, valid_code code → is_Some (data s !! code)) →
     ∀ fuel, Create fuel s longURL "" validity now r = None).
Proof.
  intros Hurl. split.
  - intros [k Hk].
    destruct (first_unused _ _ _ Hk) as (k0 & _ & Hfree & Hused).
    exists (S k0). eexists. eexists. eexists. split; [|split; [|split]].
    + intros fuel Hfuel. rewrite (Create_generated _ _ _ _ _ _ Hurl).
      rewrite (uniqueCode_first k0 fuel (data s) r Hused Hfree); [|lia].
      reflexivity.
    + apply candidate_valid.
    + exact Hfree.
    + apply lookup_insert_eq.
  - intros Hfull fuel. rewrite (Create_generated _ _ _ _ _ _ Hurl).
    by rewrite (uniqueCode_full _ Hfull).
Qed.

Lemma Create_generation_loop_witness :
  ((∃ k, data store_abc !! candidate zeros k = None)
   ∧ ∃ (n : nat) (l : Link) (s' : Store) (r' : Rand),
       (∀ fuel, n ≤ fuel →
          Create fuel store_abc "https://example.com" "" 60 5 zeros
          = Some (Ok l, s', r'))
       ∧ valid_code (ShortCode l)
       ∧ data store_abc !! ShortCode l = None
       ∧ data s' !! ShortCode l = Some l)
  ∧ ((∀ code, valid_code code → is_Some (full_registry !! code))
     ∧ ∀ fuel,
         Create fuel (mkStore full_registry "http://localhost:8080")
                "https://example.com" "" 60 5 zeros = None).
Proof.
  assert (Hurl : is_Some (url.ParseRequestURI "https://example.com"))
    by (vm_compute; eauto).
  assert (Hfree : ∃ k, data store_abc !! candidate zeros k = None)
    by (exists 0; reflexivity).
  split; split.
  - exact Hfree.
  - exact (proj1 (Create_generation_loop store_abc "https://example.com"
                    60 5 zeros Hurl) Hfree).
  - exact full_registry_full.
  - exact (proj2 (Create_generation_loop
                    (mkStore full_registry "http://localhost:8080")
                    "https://example.com" 60 5 zeros Hurl)
                 full_registry_full).
Defined.

(** ** What [url.ParseRequestURI] accepts *)

Lemma take_S_nonempty (n : nat) (s : string) : Str.take (S n) s = "" → s = "".
Proof. by destruct s. Qed.

(** Without a scheme, [getScheme] hands the whole input back. *)
Lemma getScheme_from_none (rawURL : string) (s : string) :
  ∀ (i : nat) (rest : string),
    rawURL ≠ "" ∨ s = "" →
    url.getScheme_from rawURL i s = Some ("", rest) → rest = rawURL.
Proof.
  induction s as [|c s IH]; intros i rest Hraw; cbn [url.getScheme_from].
  - congruence.
  - assert (Hne : rawURL ≠ "") by (by destruct Hraw).
    repeat case_match; intros; simplify_eq; try done; try (by eapply IH; eauto).
    all: exfalso; apply Hne; eapply take_S_nonempty; eauto.
Qed.

Lemma ToLower_empty (s : string) : Str.ToLower s = "" → s = "".
Proof. by destruct s. Qed.

Lemma HasPrefix_take (n : nat) (s p : string) :
  Str.HasPrefix (Str.take n s) p = true → Str.HasPrefix s p = true.
Proof.
  revert n s. induction p as [|c p IH]; intros n s; [by destruct s|].
  destruct n, s; simpl; try done.
  intros [-> H]%andb_true_iff. rewrite (IH _ _ H). by rewrite andb_true_r.
Qed.

(** An accepted string has a scheme, or begins with a slash, or is the
    asterisk. *)
Lemma ParseRequestURI_shape (s : string) (u : url.URL) :
  url.ParseRequestURI s = Some u →
  url.IsAbs u = true ∨ Str.HasPrefix s "/" = true ∨ s = "*".
Proof.
  unfold url.ParseRequestURI, url.parse.
  destruct (url.stringContainsCTLByte s); [done|].
  destruct (String.eqb s "" && true); [done|].
  destruct (String.eqb s "*") eqn:Estar; [right; right; by apply String.eqb_eq|].
  destruct (url.getScheme s) as [[scheme0 rest0]|] eqn:Hsch; [|done].
  cbn [mbind option_bind].
  set (q := if Str.HasSuffixByte rest0 "?" && (Str.CountByte rest0 "?" =? 1)
            then _ else _).
  assert (Hq : q.1.1 = rest0 ∨ ∃ n, q.1.1 = Str.take n rest0).
  { subst q. destruct (_ && _); [right; eauto|].
    unfold Str.Cut. destruct (Str.Index rest0 "?"); [right; eauto | by left]. }
  destruct q as [[rest rawQuery] forceQuery]. cbn [fst] in Hq.
  destruct (String.eqb (Str.ToLower scheme0) "") eqn:Hs.
  - apply String.eqb_eq, ToLower_empty in Hs as ->.
    apply getScheme_from_none in Hsch as ->; [|destruct s; auto].
    destruct (Str.HasPrefix rest "/") eqn:Hp; [|done].
    intros _. right; left.
    destruct Hq as [->|[n ->]]; [done | by eapply HasPrefix_take].
  - intros Hu. left. unfold url.IsAbs.
    assert (HS : url.Scheme u = Str.ToLower scheme0); [|by rewrite HS, Hs].
    revert Hu. cbn [negb orb andb].
    repeat case_match; intros; simplify_option_eq; try done;
      repeat match goal with p : (_ * _)%type |- _ => destruct p end;
      simplify_option_eq; done.
Qed.

Example ParseRequestURI_absolute_URI :
  url.ParseRequestURI "https://example.com"
  = Some (url.mkURL "https" "" None "example.com" "" false false "" "").
Proof. reflexivity. Qed.

Example ParseRequestURI_relative_path :
  url.ParseRequestURI "docs/index.html" = None
  ∧ url.ParseRequestURI "not-a-url" = None
  ∧ url.ParseRequestURI "" = None.
Proof. repeat split. Qed.

Example ParseRequestURI_absolute_path :
  url.ParseRequestURI "/foo"
  = Some (url.mkURL "" "" None "" "/foo" false false "" "").
Proof. reflexivity. Qed.

(** The scheme of a parsed URL is the one [getScheme] found, in lower
    case. *)
Lemma parse_Scheme (s : string) (v : bool) (u : url.URL) :
  url.parse s v = Some u →
  s ≠ "*" →
  ∃ scheme rest, url.getScheme s = Some (scheme, rest)
                 ∧ url.Scheme u = Str.ToLower scheme.
Proof.
  unfold url.parse.
  destruct (url.stringContainsCTLByte s); [done|].
  destruct (String.eqb s "" && v); [done|].
  destruct (String.eqb s "*") eqn:Estar; [by apply String.eqb_eq in Estar|].
  destruct (url.getScheme s) as [[scheme0 rest0]|] eqn:Hsch; [|done].
  cbn [mbind option_bind]. intros Hu _. exists scheme0, rest0. split; [done|].
  revert Hu.
  destruct (if Str.HasSuffixByte rest0 "?" && (Str.CountByte rest0 "?" =? 1)
            then _ else _) as [[rest rawQuery] forceQuery].
  repeat case_match; intros; simplify_option_eq; try done;
    repeat match goal with p : (_ * _)%type |- _ => destruct p end;
    simplify_option_eq; done.
Qed.

(** What the general parser takes for a URL with a scheme, the parser of
    request URIs takes too: the two differ on inputs without a scheme
    only. *)
Lemma parse_absolute_viaRequest (s : string) (u : url.URL) :
  url.parse s false = Some u →
  url.IsAbs u = true →
  url.parse s true = Some u.
Proof.
  intros Hu Habs.
  destruct (decide (s = "*")) as [->|Hstar].
  { vm_compute in Hu. injection Hu as <-. discriminate Habs. }
  destruct (parse_Scheme s false u Hu Hstar) as (scheme0 & rest0 & Hsch & HS).
  unfold url.IsAbs in Habs. rewrite HS in Habs.
  apply negb_true_iff in Habs.
  revert Hu. unfold url.parse.
  destruct (url.stringContainsCTLByte s); [done|].
  destruct (String.eqb s "") eqn:Hempty.
  { apply String.eqb_eq in Hempty as ->. vm_compute in Hsch.
    injection Hsch as <- <-. discriminate Habs. }
  cbn [andb].
  destruct (String.eqb s "*"); [done|].
  rewrite Hsch. cbn [mbind option_bind]. rewrite Habs.
  cbn [negb orb andb]. done.
Qed.

(** Without a number sign there is no fragment to cut off. *)
Lemma Parse_no_fragment (s : string) :
  Str.Contains s "#" = false → url.Parse s = url.parse s false.
Proof.
  unfold url.Parse, Str.Cut, Str.Contains.
  destruct (Str.Index s "#"); [discriminate|]. intros _.
  by destruct (url.parse s false).
Qed.

(** A reference without a scheme that does not begin with a slash is
    rejected. *)
Lemma ParseRequestURI_relative (s : string) :
  no_scheme s →
  Str.HasPrefix s "/" = false →
  s ≠ "*" →
  url.ParseRequestURI s = None.
Proof.
  intros Hno Hslash Hstar.
  destruct (url.ParseRequestURI s) as [u|] eqn:Hu; [|done].
  destruct (parse_Scheme s true u Hu Hstar) as (scheme & rest & Hsch & HS).
  rewrite (Hno _ _ Hsch) in HS.
  destruct (ParseRequestURI_shape s u Hu) as [Habs|[Hp| ->]]; [|congruence|done].
  unfold url.IsAbs in Habs. rewrite HS in Habs. discriminate Habs.
Qed.

(** C3 (as amended): [Create] fails with [InvalidURL] exactly when
    [url.ParseRequestURI] rejects the long URL.  It accepts every
    parseable absolute URI that holds no number sign.  Every string it
    accepts has a scheme, or begins with a slash (an absolute path), or is
    the asterisk; a string without a scheme that neither begins with a
    slash nor is the asterisk, such as a bare relative path, is
    rejected. *)
Theorem Create_InvalidURL_iff_rejected (fuel : nat) (s : Store)
    (longURL custom : string) (validity : Duration) (now : Time) (r : Rand) :
  ((∃ s' r', Create fuel s longURL custom validity now r
             = Some (Error InvalidURL, s', r'))
   ↔ url.ParseRequestURI longURL = None)
  ∧ (absolute_URI longURL = true
     → Str.Contains longURL "#" = false
     → ∃ u, url.ParseRequestURI longURL = Some u ∧ url.IsAbs u = true)
  ∧ (∀ u, url.ParseRequestURI longURL = Some u
          → url.IsAbs u = true
            ∨ Str.HasPrefix longURL "/" = true
            ∨ longURL = "*")
  ∧ (no_scheme longURL
     → Str.HasPrefix longURL "/" = false
     → longURL ≠ "*"
     → Create fuel s longURL custom validity now r
       = Some (Error InvalidURL, s, r)).
Proof.
  split; [split|split; [|split]].
  - intros (s' & r' & H).
    destruct (Create_cases fuel s longURL custom validity now r)
      as [[Hrej _]|[[_ E]|[[_ E]|[_ (code & r1 & _ & E)]]]];
      [done| | |]; cbv zeta in E; rewrite E in H; discriminate H.
  - intros Hrej. exists s, r. by apply Create_invalid.
  - unfold absolute_URI. intros Habs Hfrag.
    rewrite (Parse_no_fragment longURL Hfrag) in Habs.
    destruct (url.parse longURL false) as [u|] eqn:Hu; [|discriminate Habs].
    exists u. split; [|done]. by apply parse_absolute_viaRequest.
  - intros u Hu. by apply ParseRequestURI_shape.
  - intros Hno Hslash Hstar. apply Create_invalid.
    by apply ParseRequestURI_relative.
Qed.

Lemma Create_InvalidURL_iff_rejected_witness :
  (absolute_URI "https://example.com/a?b=1" = true
   ∧ ∃ u, url.ParseRequestURI "https://example.com/a?b=1" = Some u
          ∧ url.IsAbs u = true)
  ∧ (url.ParseRequestURI "/foo"
     = Some (url.mkURL "" "" None "" "/foo" false false "" "")
     ∧ (url.IsAbs (url.mkURL "" "" None "" "/foo" false false "" "") = true
        ∨ Str.HasPrefix "/foo" "/" = true
        ∨ "/foo" = "*"))
  ∧ (no_scheme "docs/index.html"
     ∧ Create 0 store_abc "docs/index.html" "" 60 5 zeros
       = Some (Error InvalidURL, store_abc, zeros)).
Proof.
  assert (Hno : no_scheme "docs/index.html").
  { intros scheme rest H. vm_compute in H. by injection H as <- _. }
  destruct (Create_InvalidURL_iff_rejected 0 store_abc
              "https://example.com/a?b=1" "" 60 5 zeros)
    as (_ & Habs & _ & _).
  destruct (Create_InvalidURL_iff_rejected 0 store_abc "/foo" "" 60 5 zeros)
    as (_ & _ & Hshape & _).
  destruct (Create_InvalidURL_iff_rejected 0 store_abc "docs/index.html" ""
              60 5 zeros) as (_ & _ & _ & Hrel).
  split; [split; [reflexivity | by apply Habs]|].
  split; [split; [reflexivity | by apply Hshape]|].
  split; [exact Hno|]. by apply Hrel.
Defined.

(** C3, as first stated, fails in both directions: "/foo" is not an
    absolute URI (it has no scheme), yet [Create] accepts it and stores the
    link; "https://example.com#frag" is a parseable absolute URI, yet
    [Create] answers [InvalidURL], because the validator does not cut the
    fragment off and finds the number sign in the host. *)
Lemma Create_InvalidURL_counterexample :
  (absolute_URI "/foo" = false
   ∧ Create 0 (NewStore "http://localhost:8080") "/foo" "home" 60 5 zeros
     = Some (Ok (mkLink "/foo" "home" 5 65 0),
             mkStore {[ "home" := mkLink "/foo" "home" 5 65 0 ]}
                     "http://localhost:8080",
             zeros))
  ∧ (absolute_URI "https://example.com#frag" = true
     ∧ Create 0 (NewStore "http://localhost:8080") "https://example.com#frag"
              "home" 60 5 zeros
       = Some (Error InvalidURL, NewStore "http://localhost:8080", zeros)).
Proof. repeat split. Qed.

(** ** The expiry sweep *)

Section sweep.
Variable now : Time.

(** The loop only deletes. *)
Lemma sweep_entries_None (entries : list (string * Link)) :
  ∀ (acc : gmap string Link) (k : string),
    acc !! k = None → sweep_entries now entries acc !! k = None.
Proof.
  induction entries as [|[k' v'] entries IH]; intros acc k Hk; [done|].
  cbn [sweep_entries foldl]. apply IH.
  destruct (After now (ExpiresAt v')); [|done].
  destruct (decide (k' = k)) as [->|Hne].
  - apply lookup_delete_eq.
  - by rewrite lookup_delete_ne.
Qed.

(** A key visited with a record past its expiry is gone afterwards. *)
Lemma sweep_entries_expired (entries : list (string * Link)) :
  ∀ (acc : gmap string Link) (k : string) (v : Link),
    (k, v) ∈ entries →
    After now (ExpiresAt v) = true →
    sweep_entries now entries acc !! k = None.
Proof.
  induction entries as [|[k' v'] entries IH]; intros acc k v Hin Hexp.
  - by apply elem_of_nil in Hin.
  - cbn [sweep_entries foldl].
    apply elem_of_cons in Hin as [[= <- <-]|Hin].
    + rewrite Hexp. apply sweep_entries_None, lookup_delete_eq.
    + by apply (IH _ k v).
Qed.

(** A key never visited with a record past its expiry keeps its entry. *)
Lemma sweep_entries_live (entries : list (string * Link)) :
  ∀ (acc : gmap string Link) (k : string),
    (∀ v, (k, v) ∈ entries → After now (ExpiresAt v) = false) →
    sweep_entries now entries acc !! k = acc !! k.
Proof.
  induction entries as [|[k' v'] entries IH]; intros acc k Hlive; [done|].
  cbn [sweep_entries foldl].
  change (sweep_entries now entries
            (if After now (ExpiresAt v') then delete k' acc else acc) !! k
          = acc !! k).
  rewrite IH.
  - destruct (After now (ExpiresAt v')) eqn:Hexp; [|done].
    destruct (decide (k' = k)) as [->|Hne].
    + rewrite (Hlive v') in Hexp; [done | apply elem_of_cons; auto].
    + by rewrite lookup_delete_ne.
  - intros v Hin. apply Hlive. apply elem_of_cons; auto.
Qed.

(** The outcome of the loop over the entries of [m], in whatever order
    (and however often) they are visited. *)
Lemma sweep_entries_lookup (m : gmap string Link)
    (entries : list (string * Link)) (k : string) :
  (∀ k' v', (k', v') ∈ entries ↔ m !! k' = Some v') →
  sweep_entries now entries m !! k =
    match m !! k with
    | Some l => if After now (ExpiresAt l) then None else Some l
    | None => None
    end.
Proof.
  intros Hentries. destruct (m !! k) as [l|] eqn:Hk.
  - destruct (After now (ExpiresAt l)) eqn:Hexp.
    + apply (sweep_entries_expired _ _ _ l); [by apply Hentries | done].
    + rewrite sweep_entries_live; [done|].
      intros v Hin. apply Hentries in Hin. congruence.
  - by apply sweep_entries_None.
Qed.

Lemma CleanupExpired_round_lookup (s : Store) (k : string) :
  data (CleanupExpired_round now s) !! k =
    match data s !! k with
    | Some l => if After now (ExpiresAt l) then None else Some l
    | None => None
    end.
Proof.
  apply sweep_entries_lookup. intros k' v'. apply elem_of_map_to_list.
Qed.

End sweep.

(** X1: the sweep gives the same registry in whatever order the runtime
    yields the entries of the map (Go leaves the order of [range] over a
    map unspecified). *)
Theorem sweep_entries_order (now : Time) (s : Store)
    (entries : list (string * Link)) :
  entries ≡ₚ map_to_list (data s) →
  sweep_entries now entries (data s) = data (CleanupExpired_round now s).
Proof.
  intros Hperm. apply map_eq. intros k.
  rewrite CleanupExpired_round_lookup.
  apply sweep_entries_lookup. intros k' v'.
  rewrite Hperm. apply elem_of_map_to_list.
Qed.

Lemma sweep_entries_order_witness :
  [("abc", link_abc); ("old", link_old)] ≡ₚ map_to_list (data store_two)
  ∧ sweep_entries 50 [("abc", link_abc); ("old", link_old)] (data store_two)
    = data (CleanupExpired_round 50 store_two).
Proof.
  assert (H : [("abc", link_abc); ("old", link_old)]
              ≡ₚ map_to_list (data store_two)).
  { vm_compute. apply perm_swap. }
  split; [exact H|].
  exact (sweep_entries_order 50 store_two _ H).
Defined.

(** A record that has not expired at any of the clock readings survives
    that many rounds of [CleanupExpired]. *)
Lemma CleanupExpired_keeps_live (nows : list Time) :
  ∀ (s : Store) (code : string) (l : Link),
    data s !! code = Some l →
    Forall (λ now, (now ≤ ExpiresAt l)%Z) nows →
    data (CleanupExpired nows s) !! code = Some l.
Proof.
  induction nows as [|now nows IH]; intros s code l Hl Hlive; [done|].
  apply Forall_cons in Hlive as [Hnow Hlive].
  cbn [CleanupExpired foldl]. apply IH; [|done].
  rewrite CleanupExpired_round_lookup, Hl.
  by assert (After now (ExpiresAt l) = false) as -> by (apply Z.ltb_ge, Hnow).
Qed.

(** C2 (as amended): a sweep at clock reading [now] removes exactly the
    records whose [expiresAt] is strictly before [now]; every record with
    [expiresAt] at or after [now] is still present and unchanged, and the
    sweep adds nothing. *)
Theorem CleanupExpired_round_removes_past (now : Time) (s : Store)
    (code : string) :
  data (CleanupExpired_round now s) !! code =
    match data s !! code with
    | Some l => if (ExpiresAt l <? now)%Z then None else Some l
    | None => None
    end
  ∧ domain (CleanupExpired_round now s) = domain s.
Proof. split; [apply CleanupExpired_round_lookup | done]. Qed.

(** C2, as first stated, fails: a record whose [expiresAt] equals the
    clock reading is at or before it, yet the sweep keeps it. *)
Lemma CleanupExpired_round_counterexample :
  (ExpiresAt link_abc <= 100)%Z
  ∧ data store_abc !! "abc" = Some link_abc
  ∧ data (CleanupExpired_round 100 store_abc) !! "abc" = Some link_abc.
Proof.
  split; [simpl; lia|]. split; [apply lookup_singleton_eq|].
  rewrite CleanupExpired_round_lookup.
  unfold store_abc; cbn [data]. by rewrite lookup_singleton_eq.
Qed.

(** ** Redirect and click counting *)

Lemma wrap64_in_range (z : Z) :
  (MinInt64 ≤ z ≤ MaxInt64)%Z → wrap64 z = z.
Proof.
  unfold MinInt64, MaxInt64, wrap64. intros Hz.
  rewrite Z.mod_small; lia.
Qed.

Lemma wrap64_max : wrap64 (MaxInt64 + 1) = MinInt64.
Proof. reflexivity. Qed.

Lemma Increment_present (s : Store) (code : string) (l : Link) :
  data s !! code = Some l →
  Increment s code =
    mkStore (<[code := mkLink (LongURL l) (ShortCode l) (CreatedAt l)
                              (ExpiresAt l) (wrap64 (Clicks l + 1))]> (data s))
            (domain s).
Proof. intros H. unfold Increment. by rewrite H. Qed.

Lemma Increment_absent (s : Store) (code : string) :
  data s !! code = None → Increment s code = s.
Proof. intros H. unfold Increment. by rewrite H. Qed.

(** One successful redirect, in 64-bit arithmetic: the answer, the new
    counter of the link, and what is left as it was.  [Increment] on an
    absent code changes nothing. *)
Lemma redirectHandler_counts_click (store : Store) (code : string)
    (now : Time) :
  (∀ link,
     Get store code = Some link →
     (now ≤ ExpiresAt link)%Z →
     ∃ store' link',
       redirectHandler store code now
       = (http_Redirect (LongURL link) StatusFound, store')
       ∧ data store' !! code = Some link'
       ∧ Clicks link' = wrap64 (Clicks link + 1)
       ∧ ((MinInt64 ≤ Clicks link < MaxInt64)%Z
          → Clicks link' = (Clicks link + 1)%Z)
       ∧ LongURL link' = LongURL link
       ∧ ShortCode link' = ShortCode link
       ∧ CreatedAt link' = CreatedAt link
       ∧ ExpiresAt link' = ExpiresAt link
       ∧ (∀ other, other ≠ code → data store' !! other = data store !! other)
       ∧ domain store' = domain store)
  ∧ (data store !! code = None → Increment store code = store).
Proof.
  split; [|apply Increment_absent].
  intros link Hget Hlive. unfold redirectHandler. rewrite Hget.
  assert (After now (ExpiresAt link) = false) as -> by (apply Z.ltb_ge, Hlive).
  rewrite (Increment_present _ _ _ Hget).
  eexists. eexists. split; [reflexivity|]. cbn [data domain].
  split; [apply lookup_insert_eq|]. cbn [Clicks].
  split; [done|]. split.
  { intros Hrange. apply wrap64_in_range. unfold MinInt64, MaxInt64 in *. lia. }
  repeat (split; [done|]). split; [|done].
  intros other Hne. by rewrite lookup_insert_ne.
Qed.

Example redirectHandler_counts_click_example :
  (∃ store' link',
     redirectHandler store_abc "abc" 50
     = (http_Redirect (LongURL link_abc) StatusFound, store')
     ∧ data store' !! "abc" = Some link'
     ∧ Clicks link' = wrap64 (Clicks link_abc + 1)
     ∧ ((MinInt64 ≤ Clicks link_abc < MaxInt64)%Z
        → Clicks link' = (Clicks link_abc + 1)%Z)
     ∧ LongURL link' = LongURL link_abc
     ∧ ShortCode link' = ShortCode link_abc
     ∧ CreatedAt link' = CreatedAt link_abc
     ∧ ExpiresAt link' = ExpiresAt link_abc
     ∧ (∀ other, other ≠ "abc"
                 → data store' !! other = data store_abc !! other)
     ∧ domain store' = domain store_abc)
  ∧ Increment store_abc "zzz" = store_abc.
Proof.
  split.
  - apply (redirectHandler_counts_click store_abc "abc" 50).
    + apply lookup_singleton_eq.
    + simpl. lia.
  - apply (redirectHandler_counts_click store_abc "zzz" 50). reflexivity.
Defined.

(** C6: for a code that is present with [expiresAt] strictly before the
    clock reading, [Redirect] answers 410 with the Gone error, issues no
    redirect and leaves the registry (so the click counter) untouched; for
    an absent code it answers 404 with the NotFound error. *)
Theorem redirectHandler_gone_or_not_found (store : Store) (code : string)
    (now : Time) :
  (∀ link,
     data store !! code = Some link →
     (ExpiresAt link < now)%Z →
     redirectHandler store code now
     = (httpError StatusGone "short link expired", store)
     ∧ data (redirectHandler store code now).2 !! code = Some link
     ∧ ∀ url status, (redirectHandler store code now).1 ≠ http_Redirect url status)
  ∧ (data store !! code = None →
     redirectHandler store code now
     = (httpError StatusNotFound "short link not found", store)).
Proof.
  split.
  - intros link Hget Hexp. unfold redirectHandler, Get. rewrite Hget.
    assert (After now (ExpiresAt link) = true) as ->
      by (apply Z.ltb_lt, Hexp).
    split; [done|]. split; [done|]. intros url status. discriminate.
  - intros Hnone. unfold redirectHandler, Get. by rewrite Hnone.
Qed.

Lemma redirectHandler_gone_or_not_found_witness :
  (redirectHandler store_abc "abc" 101
   = (httpError StatusGone "short link expired", store_abc)
   ∧ data (redirectHandler store_abc "abc" 101).2 !! "abc" = Some link_abc
   ∧ ∀ url status,
       (redirectHandler store_abc "abc" 101).1 ≠ http_Redirect url status)
  ∧ redirectHandler store_abc "zzz" 101
    = (httpError StatusNotFound "short link not found", store_abc).
Proof.
  split.
  - apply (redirectHandler_gone_or_not_found store_abc "abc" 101).
    + apply lookup_singleton_eq.
    + simpl. lia.
  - apply (redirectHandler_gone_or_not_found store_abc "zzz" 101). reflexivity.
Defined.

(** ** Stats *)

(** C8: for every code present in the registry, [Stats] answers 200 with
    the full link record (long_url, short_code, created_at, expires_at,
    clicks), whatever its [expiresAt]: the handler reads no clock.  It
    answers 404 with the NotFound error exactly when the code is absent,
    and never 410. *)
Theorem statsHandler_full_record (store : Store) (code : string) :
  statsHandler store code =
    match data store !! code with
    | Some link =>
        writeJSON 200 [("long_url", JString (LongURL link));
                       ("short_code", JString (ShortCode link));
                       ("created_at", JTime (CreatedAt link));
                       ("expires_at", JTime (ExpiresAt link));
                       ("clicks", JInt (Clicks link))]
    | None => writeJSON 404 [("error", JString "short link not found")]
    end
  ∧ (status_of (statsHandler store code) = 404 ↔ data store !! code = None)
  ∧ (status_of (statsHandler store code) = 200 ↔ is_Some (data store !! code))
  ∧ status_of (statsHandler store code) ≠ StatusGone.
Proof.
  unfold statsHandler, Get.
  destruct (data store !! code) as [link|]; cbn.
  - split; [done|]. split; [split; discriminate|].
    split; [split; eauto | discriminate].
  - split; [done|]. split; [done|].
    split; [split; [discriminate | intros [? ?]; discriminate] | discriminate].
Qed.

(** A record past its expiry and not yet swept is still reported. *)
Example statsHandler_expired_record :
  (redirectHandler store_abc "abc" 1000).1
  = httpError StatusGone "short link expired"
  ∧ statsHandler store_abc "abc" = writeJSON StatusOK (Link_json link_abc).
Proof.
  split.
  { unfold redirectHandler, Get. unfold store_abc; cbn [data].
    by rewrite lookup_singleton_eq. }
  unfold statsHandler, Get. unfold store_abc; cbn [data].
  by rewrite lookup_singleton_eq.
Qed.

(** ** Further properties of [Create] *)

(** X2: a successful [Create] never overwrites: the short code of the
    returned link was unused, the registry afterwards is the old one with
    that one record added, and the record carries the URL passed in, the
    clock reading as [createdAt], that reading plus the validity as
    [expiresAt], and no clicks. *)
Theorem Create_success_adds_one (fuel : nat) (s s' : Store)
    (longURL custom : string) (validity : Duration) (now : Time)
    (r r' : Rand) (l : Link) :
  Create fuel s longURL custom validity now r = Some (Ok l, s', r') →
  data s !! ShortCode l = None
  ∧ s' = mkStore (<[ShortCode l := l]> (data s)) (domain s)
  ∧ l = mkLink longURL (ShortCode l) now (now + validity) 0
  ∧ (custom ≠ "" → ShortCode l = custom ∧ r' = r)
  ∧ (custom = "" → valid_code (ShortCode l)).
Proof.
  intros H. unfold Create in H.
  destruct (url.ParseRequestURI longURL) as [u|]; [|discriminate H].
  destruct (String.eqb custom "") eqn:Hc; cbn [negb] in H.
  - apply String.eqb_eq in Hc as ->.
    destruct (uniqueCode fuel (data s) r) as [[code r1]|] eqn:Hgen;
      [|discriminate H].
    apply uniqueCode_sound in Hgen as [Hfree Hvalid].
    injection H as <- <- <-. cbn [ShortCode].
    split; [done|]. split; [done|]. split; [done|].
    split; [intros Hne; by destruct Hne | done].
  - apply String.eqb_neq in Hc.
    destruct (data s !! custom) eqn:Hl; [discriminate H|].
    injection H as <- <- <-. cbn [ShortCode].
    split; [done|]. split; [done|]. split; [done|].
    split; [done | intros ->; by destruct Hc].
Qed.

Lemma Create_success_adds_one_witness :
  Create 0 store_abc "https://example.org/x" "xyz" 60 5 zeros
  = Some (Ok (mkLink "https://example.org/x" "xyz" 5 65 0),
          mkStore (<["xyz" := mkLink "https://example.org/x" "xyz" 5 65 0]>
                     (data store_abc)) (domain store_abc),
          zeros)
  ∧ data store_abc !! "xyz" = None.
Proof.
  assert (H : Create 0 store_abc "https://example.org/x" "xyz" 60 5 zeros
              = Some (Ok (mkLink "https://example.org/x" "xyz" 5 65 0),
                      mkStore (<["xyz" := mkLink "https://example.org/x" "xyz"
                                                 5 65 0]> (data store_abc))
                              (domain store_abc),
                      zeros)) by reflexivity.
  split; [exact H|].
  exact (proj1 (Create_success_adds_one 0 store_abc _ "https://example.org/x"
                  "xyz" 60 5 zeros zeros _ H)).
Defined.

(** X3: with a long URL that passes validation and a non-empty custom code
    that is unused, [Create] succeeds without entering the generation loop
    and without drawing a random number. *)
Theorem Create_fresh_custom_code (fuel : nat) (s : Store)
    (longURL custom : string) (validity : Duration) (now : Time) (r : Rand) :
  is_Some (url.ParseRequestURI longURL) →
  custom ≠ "" →
  data s !! custom = None →
  Create fuel s longURL custom validity now r =
    Some (Ok (mkLink longURL custom now (now + validity) 0),
          mkStore (<[custom := mkLink longURL custom now (now + validity) 0]>
                     (data s)) (domain s),
          r).
Proof. intros Hurl Hne Hfree. by apply Create_custom_fresh. Qed.

Lemma Create_fresh_custom_code_witness :
  Create 0 store_abc "https://example.org/x" "xyz" 60 5 zeros =
    Some (Ok (mkLink "https://example.org/x" "xyz" 5 (5 + 60) 0),
          mkStore (<["xyz" := mkLink "https://example.org/x" "xyz" 5 (5 + 60) 0]>
                     (data store_abc)) (domain store_abc),
          zeros).
Proof.
  apply (Create_fresh_custom_code 0 store_abc "https://example.org/x" "xyz").
  - vm_compute. eauto.
  - discriminate.
  - reflexivity.
Defined.

(** ** Invariants of the registry *)

(** What a successful [Create] did. *)
Lemma Create_Ok_inv (fuel : nat) (s s' : Store) (longURL custom : string)
    (validity : Duration) (now : Time) (r r' : Rand) (l : Link) :
  Create fuel s longURL custom validity now r = Some (Ok l, s', r') →
  is_Some (url.ParseRequestURI longURL)
  ∧ data s !! ShortCode l = None
  ∧ ShortCode l ≠ ""
  ∧ l = mkLink longURL (ShortCode l) now (now + validity) 0
  ∧ s' = mkStore (<[ShortCode l := l]> (data s)) (domain s).
Proof.
  intros H. unfold Create in H.
  destruct (url.ParseRequestURI longURL) as [u|]; [|discriminate H].
  split; [eauto|].
  destruct (String.eqb custom "") eqn:Hc; cbn [negb] in H.
  - destruct (uniqueCode fuel (data s) r) as [[code r1]|] eqn:Hgen;
      [|discriminate H].
    apply uniqueCode_sound in Hgen as [Hfree [Hlen _]].
    injection H as <- <- <-. cbn [ShortCode].
    split; [done|]. split; [|done]. intros ->. discriminate Hlen.
  - apply String.eqb_neq in Hc.
    destruct (data s !! custom) eqn:Hl; [discriminate H|].
    injection H as <- <- <-. cbn [ShortCode]. done.
Qed.

(** An error of [Create] leaves the registry alone. *)
Lemma Create_Error_inv (fuel : nat) (s s' : Store) (longURL custom : string)
    (validity : Duration) (now : Time) (r r' : Rand) (msg : string) :
  Create fuel s longURL custom validity now r = Some (Error msg, s', r') →
  s' = s ∧ r' = r ∧ (msg = InvalidURL ∨ msg = CodeConflict).
Proof.
  intros H.
  destruct (Create_cases fuel s longURL custom validity now r)
    as [[_ E]|[[_ E]|[[_ E]|[_ (code & r1 & _ & E)]]]];
    cbv zeta in E; rewrite E in H; simplify_eq; auto.
Qed.

Lemma well_keyed_Create (fuel : nat) (s : Store) (longURL custom : string)
    (validity : Duration) (now : Time) (r : Rand) :
  well_keyed s →
  ∀ res s' r',
    Create fuel s longURL custom validity now r = Some (res, s', r') →
    well_keyed s'.
Proof.
  intros Hs [l|msg] s' r' H.
  - apply Create_Ok_inv in H as (Hurl & Hfree & Hne & Hl & ->).
    intros code l'. cbn [data].
    destruct (decide (ShortCode l = code)) as [<-|Hother].
    + rewrite lookup_insert_eq. intros [= <-].
      split; [done|]. split; [done|]. by rewrite Hl.
    + rewrite lookup_insert_ne by done. apply Hs.
  - by apply Create_Error_inv in H as (-> & _ & _).
Qed.

Lemma well_keyed_Increment (s : Store) (code : string) :
  well_keyed s → well_keyed (Increment s code).
Proof.
  intros Hs. unfold Increment.
  destruct (data s !! code) as [l|] eqn:Hl; [|done].
  intros code' l'. cbn [data].
  destruct (decide (code = code')) as [<-|Hother].
  - rewrite lookup_insert_eq. intros [= <-]. cbn. by apply Hs.
  - rewrite lookup_insert_ne by done. apply Hs.
Qed.

Lemma well_keyed_redirectHandler (s : Store) (code : string) (now : Time) :
  well_keyed s → well_keyed (redirectHandler s code now).2.
Proof.
  intros Hs. unfold redirectHandler.
  destruct (Get s code) as [l|]; [|done].
  destruct (After now (ExpiresAt l)); [done|].
  by apply well_keyed_Increment.
Qed.

Lemma well_keyed_CleanupExpired_round (now : Time) (s : Store) :
  well_keyed s → well_keyed (CleanupExpired_round now s).
Proof.
  intros Hs code l. rewrite CleanupExpired_round_lookup.
  destruct (data s !! code) as [l0|] eqn:Hl; [|done].
  destruct (After now (ExpiresAt l0)); [done|].
  intros [= <-]. by apply Hs.
Qed.

Lemma well_keyed_apply_op (st : Store * Rand) (o : Op) :
  well_keyed st.1 → well_keyed (apply_op st o).1.
Proof.
  intros Hs. destruct o as [fuel longURL custom validity now|code|code now|now];
    cbn [apply_op].
  - destruct (Create fuel st.1 longURL custom validity now st.2)
      as [[[res s'] r']|] eqn:H; [|done].
    by eapply well_keyed_Create.
  - by apply well_keyed_Increment.
  - by apply well_keyed_redirectHandler.
  - by apply well_keyed_CleanupExpired_round.
Qed.

Lemma domain_apply_op (st : Store * Rand) (o : Op) :
  domain (apply_op st o).1 = domain st.1.
Proof.
  destruct o as [fuel longURL custom validity now|code|code now|now];
    cbn [apply_op].
  - destruct (Create fuel st.1 longURL custom validity now st.2)
      as [[[[l|msg] s'] r']|] eqn:H; [| |done].
    + by apply Create_Ok_inv in H as (_ & _ & _ & _ & ->).
    + by apply Create_Error_inv in H as (-> & _ & _).
  - cbn. unfold Increment. by destruct (data st.1 !! code).
  - cbn. unfold redirectHandler, Increment, Get.
    destruct (data st.1 !! code) as [l|]; [|done].
    by destruct (After now (ExpiresAt l)).
  - done.
Qed.

(** X4: whatever sequence of [Create], [Increment], redirect and sweep
    operations runs on a new registry, every record sits under its own
    short code, no record sits under the empty code, every stored long URL
    is one the validator accepts, and the domain prefix is the one the
    registry was made with. *)
Theorem registry_stays_well_keyed (ops : list Op) (dom : string) (r : Rand) :
  well_keyed (run_ops ops (NewStore dom, r)).1
  ∧ domain (run_ops ops (NewStore dom, r)).1 = dom.
Proof.
  unfold run_ops.
  assert (H0 : well_keyed (NewStore dom, r).1 ∧ domain (NewStore dom, r).1 = dom).
  { split; [|done]. intros code l H. cbn in H. by rewrite lookup_empty in H. }
  revert H0. generalize (NewStore dom, r).
  induction ops as [|o ops IH]; intros st [Hk Hd]; [done|].
  cbn [foldl]. apply IH. split.
  - by apply well_keyed_apply_op.
  - by rewrite domain_apply_op.
Qed.

(** X5: two [Create] calls that succeed one after the other return links
    with different short codes, and both links are found, as returned, in
    the registry the second call leaves. *)
Theorem Create_twice_distinct_codes (fuel1 fuel2 : nat) (s s1 s2 : Store)
    (longURL1 longURL2 custom1 custom2 : string)
    (validity1 validity2 : Duration) (now1 now2 : Time)
    (r r1 r2 : Rand) (l1 l2 : Link) :
  Create fuel1 s longURL1 custom1 validity1 now1 r = Some (Ok l1, s1, r1) →
  Create fuel2 s1 longURL2 custom2 validity2 now2 r1 = Some (Ok l2, s2, r2) →
  ShortCode l1 ≠ ShortCode l2
  ∧ Get s2 (ShortCode l1) = Some l1
  ∧ Get s2 (ShortCode l2) = Some l2.
Proof.
  intros H1 H2.
  apply Create_Ok_inv in H1 as (_ & _ & _ & _ & ->).
  apply Create_Ok_inv in H2 as (_ & Hfree & _ & _ & ->).
  cbn [data] in Hfree.
  assert (Hne : ShortCode l1 ≠ ShortCode l2).
  { intros E. rewrite <- E, lookup_insert_eq in Hfree. discriminate Hfree. }
  split; [done|]. unfold Get. cbn [data]. split.
  - rewrite lookup_insert_ne by done. apply lookup_insert_eq.
  - apply lookup_insert_eq.
Qed.

Lemma Create_twice_distinct_codes_witness :
  (∃ s1 r1 s2 r2,
     Create 1 (NewStore "http://localhost:8080") "https://example.com" ""
            60 5 counting
     = Some (Ok (mkLink "https://example.com" "aaaaaa" 5 65 0), s1, r1)
     ∧ Create 1 s1 "https://example.org" "" 60 7 r1
       = Some (Ok (mkLink "https://example.org" "bbbbbb" 7 67 0), s2, r2)
     ∧ Get s2 "aaaaaa" = Some (mkLink "https://example.com" "aaaaaa" 5 65 0)
     ∧ Get s2 "bbbbbb" = Some (mkLink "https://example.org" "bbbbbb" 7 67 0))
  ∧ "aaaaaa" ≠ "bbbbbb".
Proof.
  assert (H1 : Create 1 (NewStore "http://localhost:8080")
                 "https://example.com" "" 60 5 counting
               = Some (Ok (mkLink "https://example.com" "aaaaaa" 5 65 0),
                       mkStore {[ "aaaaaa" := mkLink "https://example.com"
                                                "aaaaaa" 5 65 0 ]}
                               "http://localhost:8080",
                       mkRand (λ i, i / 6) 6)) by reflexivity.
  assert (H2 : Create 1 (mkStore {[ "aaaaaa" := mkLink "https://example.com"
                                                 "aaaaaa" 5 65 0 ]}
                                 "http://localhost:8080")
                 "https://example.org" "" 60 7 (mkRand (λ i, i / 6) 6)
               = Some (Ok (mkLink "https://example.org" "bbbbbb" 7 67 0),
                       mkStore (<[ "bbbbbb" := mkLink "https://example.org"
                                                 "bbbbbb" 7 67 0 ]>
                                  {[ "aaaaaa" := mkLink "https://example.com"
                                                   "aaaaaa" 5 65 0 ]})
                               "http://localhost:8080",
                       mkRand (λ i, i / 6) 12)) by reflexivity.
  destruct (Create_twice_distinct_codes _ _ _ _ _ _ _ _ _ _ _ _ _ _ _ _ _ _
              H1 H2) as (Hne & Hg1 & Hg2).
  split; [|exact Hne].
  eexists. eexists. eexists. eexists.
  split; [exact H1|]. split; [exact H2|]. split; [exact Hg1 | exact Hg2].
Defined.

(** ** Redirects in a row *)

(** X6: requests for one live code, one after the other, each at a clock
    reading not past its [expiresAt], are all answered with a redirect to
    its long URL, and as long as the counter stays within [int64] they
    raise it by exactly their number; nothing else in the registry
    changes. *)
Theorem redirects_count_every_click (nows : list Time) :
  ∀ (store : Store) (code : string) (link : Link),
    data store !! code = Some link →
    Forall (λ now, (now ≤ ExpiresAt link)%Z) nows →
    (MinInt64 ≤ Clicks link)%Z →
    (Clicks link + Z.of_nat (length nows) ≤ MaxInt64)%Z →
    (redirects store code nows).1
    = replicate (length nows) (http_Redirect (LongURL link) StatusFound)
    ∧ data (redirects store code nows).2 !! code
      = Some (mkLink (LongURL link) (ShortCode link) (CreatedAt link)
                     (ExpiresAt link)
                     (Clicks link + Z.of_nat (length nows)))
    ∧ ∀ other, other ≠ code →
               data (redirects store code nows).2 !! other
               = data store !! other.
Proof.
  induction nows as [|now nows IH]; intros store code link Hl Hlive Hlo Hhi.
  - cbn. split; [done|]. split; [|done].
    rewrite Hl. f_equal. destruct link; cbn. f_equal. lia.
  - apply Forall_cons in Hlive as [Hnow Hlive]. cbn [length] in Hhi.
    set (link' := mkLink (LongURL link) (ShortCode link) (CreatedAt link)
                         (ExpiresAt link) (Clicks link + 1)).
    set (store' := mkStore (<[code := link']> (data store)) (domain store)).
    assert (Hstep : redirectHandler store code now
                    = (http_Redirect (LongURL link) StatusFound, store')).
    { unfold redirectHandler, Get. rewrite Hl.
      assert (After now (ExpiresAt link) = false) as ->
        by (apply Z.ltb_ge, Hnow).
      rewrite (Increment_present _ _ _ Hl).
      by rewrite wrap64_in_range by (unfold MinInt64, MaxInt64 in *; lia). }
    cbn [redirects]. rewrite Hstep.
    specialize (IH store' code link').
    destruct (redirects store' code nows) as [resps store''].
    cbn [fst snd length replicate] in *.
    destruct IH as (Hresps & Hcode & Hothers).
    + apply lookup_insert_eq.
    + done.
    + cbn. lia.
    + cbn. lia.
    + split; [by rewrite Hresps|]. split.
      * rewrite Hcode. cbn. do 2 f_equal. lia.
      * intros other Hne. rewrite (Hothers other Hne).
        subst store'. cbn [data]. by rewrite lookup_insert_ne.
Qed.

Lemma redirects_count_every_click_witness :
  (redirects store_abc "abc" [10; 20; 100]%Z).1
  = replicate 3 (http_Redirect "https://example.com" StatusFound)
  ∧ data (redirects store_abc "abc" [10; 20; 100]%Z).2 !! "abc"
    = Some (mkLink "https://example.com" "abc" 0 100 (0 + Z.of_nat 3))
  ∧ ∀ other, other ≠ "abc" →
             data (redirects store_abc "abc" [10; 20; 100]%Z).2 !! other
             = data store_abc !! other.
Proof.
  apply (redirects_count_every_click [10; 20; 100]%Z store_abc "abc" link_abc).
  - apply lookup_singleton_eq.
  - repeat constructor; cbn; lia.
  - cbn. unfold MinInt64. lia.
  - cbn. unfold MaxInt64. lia.
Defined.

(** ** Sweeps in a row *)

Lemma Store_eq (a b : Store) : data a = data b → domain a = domain b → a = b.
Proof. destruct a, b; cbn. by intros -> ->. Qed.

Lemma CleanupExpired_round_twice (t1 t2 : Time) (s : Store) :
  CleanupExpired_round t2 (CleanupExpired_round t1 s)
  = CleanupExpired_round (Z.max t1 t2) s.
Proof.
  apply Store_eq; [|done]. apply map_eq. intros code.
  rewrite !CleanupExpired_round_lookup.
  destruct (data s !! code) as [l|]; [|done]. unfold After.
  destruct (ExpiresAt l <? t1)%Z eqn:E1.
  - apply Z.ltb_lt in E1.
    by assert ((ExpiresAt l <? Z.max t1 t2)%Z = true) as ->
      by (apply Z.ltb_lt; lia).
  - apply Z.ltb_ge in E1. destruct (ExpiresAt l <? t2)%Z eqn:E2.
    + apply Z.ltb_lt in E2.
      by assert ((ExpiresAt l <? Z.max t1 t2)%Z = true) as ->
        by (apply Z.ltb_lt; lia).
    + apply Z.ltb_ge in E2.
      by assert ((ExpiresAt l <? Z.max t1 t2)%Z = false) as ->
        by (apply Z.ltb_ge; lia).
Qed.

(** X7: any number of sweep rounds leaves the registry one round at the
    latest of their clock readings leaves; in particular a second round at
    the same reading changes nothing. *)
Theorem CleanupExpired_rounds_compose (now : Time) (nows : list Time)
    (s : Store) :
  CleanupExpired (now :: nows) s
  = CleanupExpired_round (foldl Z.max now nows) s
  ∧ CleanupExpired_round now (CleanupExpired_round now s)
    = CleanupExpired_round now s.
Proof.
  split.
  - revert now s. induction nows as [|t nows IH]; intros now s; [done|].
    cbn [CleanupExpired foldl] in *.
    rewrite CleanupExpired_round_twice. apply IH.
  - rewrite CleanupExpired_round_twice. by rewrite Z.max_id.
Qed.

(** X8: in the registry a sweep at [now] leaves, no code answers a redirect
    request with Gone at a clock reading up to [now]; a code whose record
    had expired before [now], answered with Gone until the sweep, is
    answered with NotFound after it, at any clock reading. *)
Theorem no_Gone_after_sweep (s : Store) (now t : Time) (code : string) :
  ((t ≤ now)%Z →
   status_of (redirectHandler (CleanupExpired_round now s) code t).1
   ≠ StatusGone)
  ∧ (∀ l, data s !! code = Some l →
          (ExpiresAt l < now)%Z →
          (redirectHandler s code now).1
          = httpError StatusGone "short link expired"
          ∧ redirectHandler (CleanupExpired_round now s) code t
            = (httpError StatusNotFound "short link not found",
               CleanupExpired_round now s)).
Proof.
  split.
  - intros Ht. unfold redirectHandler, Get.
    rewrite CleanupExpired_round_lookup.
    destruct (data s !! code) as [l|]; [|discriminate].
    destruct (After now (ExpiresAt l)) eqn:E; [discriminate|].
    apply Z.ltb_ge in E.
    assert (After t (ExpiresAt l) = false) as -> by (apply Z.ltb_ge; lia).
    discriminate.
  - intros l Hl Hexp. apply Z.ltb_lt in Hexp.
    unfold redirectHandler, Get. rewrite CleanupExpired_round_lookup, Hl.
    unfold After. by rewrite Hexp.
Qed.

Lemma no_Gone_after_sweep_witness :
  status_of (redirectHandler (CleanupExpired_round 200 store_two) "abc" 150).1
  ≠ StatusGone
  ∧ (redirectHandler store_two "old" 200).1
    = httpError StatusGone "short link expired"
  ∧ redirectHandler (CleanupExpired_round 200 store_two) "old" 5
    = (httpError StatusNotFound "short link not found",
       CleanupExpired_round 200 store_two).
Proof.
  split.
  - apply (proj1 (no_Gone_after_sweep store_two 200 150 "abc")). lia.
  - apply (proj2 (no_Gone_after_sweep store_two 200 5 "old") link_old).
    + reflexivity.
    + cbn. lia.
Defined.

(** ** The generator reaches the whole key space *)

Lemma index_in_lt (c : ascii) (l : list ascii) :
  c ∈ l → index_in c l < length l.
Proof.
  induction l as [|d l IH]; intros Hc; [by apply elem_of_nil in Hc|].
  cbn [index_in length]. destruct (Ascii.eqb c d) eqn:E; [lia|].
  apply Ascii.eqb_neq in E. apply elem_of_cons in Hc as [->|Hc]; [done|].
  specialize (IH Hc). lia.
Qed.

Lemma nth_index_in (c d0 : ascii) (l : list ascii) :
  c ∈ l → nth (index_in c l) l d0 = c.
Proof.
  induction l as [|d l IH]; intros Hc; [by apply elem_of_nil in Hc|].
  cbn [index_in]. destruct (Ascii.eqb c d) eqn:E.
  - apply Ascii.eqb_eq in E. by subst.
  - apply Ascii.eqb_neq in E. apply elem_of_cons in Hc as [->|Hc]; [done|].
    cbn [nth]. by apply IH.
Qed.

Lemma generateCode_spelled (n : nat) :
  ∀ (code : string) (d : nat → nat) (p : nat),
    String.length code = n →
    Forall (λ c, c ∈ base62) (String.list_ascii_of_string code) →
    (∀ i, i < n →
          d (p + i)
          = index_in (nth i (String.list_ascii_of_string code) "a"%char) base62) →
    (generateCode n (mkRand d p)).1 = code.
Proof.
  induction n as [|n IH]; intros [|c code] d p Hlen Hall Hd;
    cbn [String.length] in Hlen; try discriminate Hlen; [done|].
  cbn [String.list_ascii_of_string] in Hall, Hd.
  apply Forall_cons in Hall as [Hc Hall].
  cbn [generateCode Intn draws pos].
  specialize (IH code d (S p)).
  destruct (generateCode n (mkRand d (S p))) as [rest r2]. cbn [fst] in *.
  rewrite IH; [| congruence | done |].
  - f_equal. unfold base62_at.
    specialize (Hd 0). rewrite Nat.add_0_r in Hd. cbn [nth] in Hd.
    rewrite Hd by lia.
    rewrite Nat.mod_small by (by apply index_in_lt).
    by apply nth_index_in.
  - intros i Hi. specialize (Hd (S i)). cbn [nth] in Hd.
    rewrite <- Hd by lia. f_equal. lia.
Qed.

(** X9: the generator can produce every string over the alphabet: for
    every length [n] and every string of [n] symbols of [base62] there is
    a run of draws on which [generateCode(n)] returns that string, after
    exactly [n] draws.  With [n = 6] no code of the key space is out of
    reach. *)
Theorem generateCode_reaches_every_code (n : nat) (code : string) :
  String.length code = n →
  Forall (λ c, c ∈ base62) (String.list_ascii_of_string code) →
  generateCode n (spelling code) = (code, skip n (spelling code)).
Proof.
  intros Hlen Hall.
  rewrite <- generateCode_rand.
  rewrite (surjective_pairing (generateCode n (spelling code))). f_equal.
  apply generateCode_spelled; [done | done |]. intros i Hi. done.
Qed.

Lemma generateCode_reaches_every_code_witness :
  generateCode 6 (spelling "Zq9a0B") = ("Zq9a0B", skip 6 (spelling "Zq9a0B")).
Proof.
  apply (generateCode_reaches_every_code 6 "Zq9a0B").
  - reflexivity.
  - apply Forall_forall. intros c Hc. apply base62_alnum.
    apply list_elem_of_In in Hc. cbn in Hc.
    repeat (destruct Hc as [<-|Hc]; [reflexivity|]). destruct Hc.
Defined.

(** ** The shorten handler *)

(** Why [Create] failed, read off its error. *)
Lemma Create_Error_cause (fuel : nat) (s s' : Store) (longURL custom : string)
    (validity : Duration) (now : Time) (r r' : Rand) (msg : string) :
  Create fuel s longURL custom validity now r = Some (Error msg, s', r') →
  (msg = InvalidURL ∧ url.ParseRequestURI longURL = None)
  ∨ (msg = CodeConflict
     ∧ is_Some (url.ParseRequestURI longURL)
     ∧ custom ≠ ""
     ∧ is_Some (data s !! custom)).
Proof.
  unfold Create.
  destruct (url.ParseRequestURI longURL) as [u|].
  2:{ intros [= <- <- <-]. by left. }
  destruct (String.eqb custom "") eqn:Hc; cbn [negb].
  - by destruct (uniqueCode fuel (data s) r) as [[code r1]|].
  - apply String.eqb_neq in Hc.
    destruct (data s !! custom) as [l|] eqn:Hl; [|done].
    intros [= <- <- <-]. right. eauto.
Qed.

(** Every way [shortenHandler] can answer. *)
Lemma shortenHandler_inv (fuel : nat) (store store' : Store)
    (body : option ShortenRequest) (now : Time) (r r' : Rand)
    (resp : Response) :
  shortenHandler fuel store body now r = Some (resp, store', r') →
  (body = None
   ∧ resp = httpError StatusBadRequest "invalid json"
   ∧ store' = store ∧ r' = r)
  ∨ (∃ req, body = Some req ∧ URL req = ""
            ∧ resp = httpError StatusBadRequest "url is required"
            ∧ store' = store ∧ r' = r)
  ∨ (∃ req msg,
       body = Some req ∧ URL req ≠ ""
       ∧ Create fuel store (URL req) (CustomCode req) (request_validity req)
                now r = Some (Error msg, store', r')
       ∧ resp = httpError StatusBadRequest msg)
  ∨ (∃ req link,
       body = Some req ∧ URL req ≠ ""
       ∧ Create fuel store (URL req) (CustomCode req) (request_validity req)
                now r = Some (Ok link, store', r')
       ∧ resp = writeJSON StatusCreated
                  [("short_url",
                    JString (domain store +:+ "/" +:+ ShortCode link));
                   ("short_code", JString (ShortCode link));
                   ("expires_at", JTime (ExpiresAt link));
                   ("long_url", JString (LongURL link))]).
Proof.
  unfold shortenHandler. destruct body as [req|].
  2:{ intros [= <- <- <-]. by left. }
  destruct (String.eqb (URL req) "") eqn:Hu.
  { apply String.eqb_eq in Hu. intros [= <- <- <-]. right; left. eauto 10. }
  apply String.eqb_neq in Hu.
  destruct (Create fuel store (URL req) (CustomCode req) (request_validity req)
                   now r) as [[[[link|msg] s1] r1]|] eqn:HC; [| |done].
  - intros [= <- <- <-]. right; right; right. exists req, link. done.
  - intros [= <- <- <-]. right; right; left. exists req, msg. done.
Qed.

(** X10: [shortenHandler] answers 201 or 400 and nothing else.  A 400
    leaves the registry and the random source untouched, and its message
    names the cause: "invalid json" for a body that does not decode, "url
    is required" for an empty [url], "invalid url" for a non-empty [url]
    the validator rejects, "custom code already exists" for an accepted
    [url] with a non-empty custom code that is taken. *)
Theorem shortenHandler_bad_request (fuel : nat) (store store' : Store)
    (body : option ShortenRequest) (now : Time) (r r' : Rand)
    (resp : Response) :
  shortenHandler fuel store body now r = Some (resp, store', r') →
  (status_of resp = StatusCreated ∨ status_of resp = StatusBadRequest)
  ∧ (status_of resp = StatusBadRequest →
     store' = store ∧ r' = r
     ∧ ((resp = httpError StatusBadRequest "invalid json" ∧ body = None)
        ∨ ∃ req,
            body = Some req
            ∧ ((resp = httpError StatusBadRequest "url is required"
                ∧ URL req = "")
               ∨ (resp = httpError StatusBadRequest "invalid url"
                  ∧ URL req ≠ ""
                  ∧ url.ParseRequestURI (URL req) = None)
               ∨ (resp = httpError StatusBadRequest "custom code already exists"
                  ∧ URL req ≠ ""
                  ∧ is_Some (url.ParseRequestURI (URL req))
                  ∧ CustomCode req ≠ ""
                  ∧ is_Some (data store !! CustomCode req))))).
Proof.
  intros H.
  destruct (shortenHandler_inv _ _ _ _ _ _ _ _ H)
    as [(-> & -> & -> & ->)
       |[(req & -> & Hu & -> & -> & ->)
        |[(req & msg & -> & Hu & HC & ->)
         |(req & link & -> & Hu & HC & ->)]]].
  - split; [by right|]. intros _. split; [done|]. split; [done|]. by left.
  - split; [by right|]. intros _. split; [done|]. split; [done|].
    right. exists req. split; [done|]. by left.
  - split; [by right|]. intros _.
    destruct (Create_Error_inv _ _ _ _ _ _ _ _ _ _ HC) as (-> & -> & _).
    split; [done|]. split; [done|]. right. exists req. split; [done|].
    destruct (Create_Error_cause _ _ _ _ _ _ _ _ _ _ HC)
      as [[-> Hrej]|(-> & Hacc & Hne & Htaken)].
    + right; left. done.
    + right; right. done.
  - split; [by left|]. discriminate.
Qed.

Lemma shortenHandler_bad_request_witness :
  shortenHandler 0 store_abc
    (Some (mkShortenRequest "https://example.org/x" "abc" 0)) 5 zeros
  = Some (httpError StatusBadRequest "custom code already exists",
          store_abc, zeros)
  ∧ (StatusBadRequest = StatusCreated ∨ StatusBadRequest = StatusBadRequest).
Proof.
  assert (H : shortenHandler 0 store_abc
                (Some (mkShortenRequest "https://example.org/x" "abc" 0)) 5
                zeros
              = Some (httpError StatusBadRequest "custom code already exists",
                      store_abc, zeros)) by reflexivity.
  split; [exact H|].
  exact (proj1 (shortenHandler_bad_request _ _ _ _ _ _ _ _ H)).
Defined.

Lemma request_validity_default (req : ShortenRequest) :
  (ValidityMinute req ≤ 0)%Z →
  request_validity req = (30 * Minute)%Z.
Proof.
  intros Hv. unfold request_validity.
  by assert ((0 <? ValidityMinute req)%Z = false) as -> by (apply Z.ltb_ge, Hv).
Qed.

Lemma request_validity_minutes (req : ShortenRequest) :
  (0 < ValidityMinute req ≤ 153722867)%Z →
  request_validity req = (ValidityMinute req * Minute)%Z.
Proof.
  intros [Hlo Hhi]. unfold request_validity.
  assert ((0 <? ValidityMinute req)%Z = true) as -> by (apply Z.ltb_lt, Hlo).
  apply wrap64_in_range. unfold MinInt64, MaxInt64, Minute. lia.
Qed.

Lemma request_validity_overflow (req : ShortenRequest) :
  (153722867 < ValidityMinute req ≤ 307445734)%Z →
  request_validity req = (ValidityMinute req * Minute - 2 ^ 64)%Z
  ∧ (request_validity req < 0)%Z.
Proof.
  intros [Hlo Hhi]. unfold request_validity.
  assert ((0 <? ValidityMinute req)%Z = true) as -> by (apply Z.ltb_lt; lia).
  unfold wrap64, Minute.
  assert (E : ((ValidityMinute req * 60000000000 + 2 ^ 63) mod 2 ^ 64
               = ValidityMinute req * 60000000000 + 2 ^ 63 - 2 ^ 64)%Z).
  { symmetry. apply (Z.mod_unique _ _ 1); lia. }
  rewrite E. lia.
Qed.

(** X11: a 201 from [shortenHandler] describes the record it has just
    stored: the response carries the [url] of the request, the short code,
    the short URL made of the registry's domain, a slash and the code, and
    the expiry of the stored record, which was created at the clock reading
    with no clicks.  The record expires 30 minutes after its creation when
    [validity_minutes] is absent, zero or negative, and that many minutes
    after it when it is between 1 and 153722867. *)
Theorem shortenHandler_created (fuel : nat) (store store' : Store)
    (req : ShortenRequest) (now : Time) (r r' : Rand) (resp : Response) :
  shortenHandler fuel store (Some req) now r = Some (resp, store', r') →
  status_of resp = StatusCreated →
  ∃ link,
    resp = writeJSON StatusCreated
             [("short_url", JString (domain store +:+ "/" +:+ ShortCode link));
              ("short_code", JString (ShortCode link));
              ("expires_at", JTime (ExpiresAt link));
              ("long_url", JString (URL req))]
    ∧ data store !! ShortCode link = None
    ∧ Get store' (ShortCode link) = Some link
    ∧ LongURL link = URL req
    ∧ CreatedAt link = now
    ∧ Clicks link = 0%Z
    ∧ ((ValidityMinute req ≤ 0)%Z →
       ExpiresAt link = (now + 30 * 60000000000)%Z)
    ∧ ((0 < ValidityMinute req ≤ 153722867)%Z →
       ExpiresAt link = (now + ValidityMinute req * 60000000000)%Z).
Proof.
  intros H Hst.
  destruct (shortenHandler_inv _ _ _ _ _ _ _ _ H)
    as [(? & -> & _)
       |[(req0 & _ & _ & -> & _)
        |[(req0 & msg & _ & _ & _ & ->)
         |(req0 & link & [= <-] & Hu & HC & ->)]]];
    try discriminate Hst.
  apply Create_Ok_inv in HC as (_ & Hfree & _ & Hl & ->).
  exists link. rewrite Hl. cbn [LongURL ShortCode ExpiresAt CreatedAt Clicks].
  split; [done|]. split; [done|].
  split; [unfold Get; cbn [data]; rewrite lookup_insert_eq; by rewrite <- Hl|].
  split; [done|]. split; [done|]. split; [done|]. split.
  - intros Hv. by rewrite request_validity_default.
  - intros Hv. by rewrite request_validity_minutes.
Qed.

Lemma shortenHandler_created_witness :
  ∃ link,
    writeJSON StatusCreated
      [("short_url", JString "http://localhost:8080/aaaaaa");
       ("short_code", JString "aaaaaa");
       ("expires_at", JTime 1800000000005);
       ("long_url", JString "https://example.com")]
    = writeJSON StatusCreated
        [("short_url",
          JString (domain (NewStore "http://localhost:8080")
                   +:+ "/" +:+ ShortCode link));
         ("short_code", JString (ShortCode link));
         ("expires_at", JTime (ExpiresAt link));
         ("long_url",
          JString (URL (mkShortenRequest "https://example.com" "" 0)))]
    ∧ data (NewStore "http://localhost:8080") !! ShortCode link = None
    ∧ Get (mkStore {[ "aaaaaa" := mkLink "https://example.com" "aaaaaa" 5
                                         1800000000005 0 ]}
                   "http://localhost:8080") (ShortCode link) = Some link
    ∧ LongURL link = URL (mkShortenRequest "https://example.com" "" 0)
    ∧ CreatedAt link = 5%Z
    ∧ Clicks link = 0%Z
    ∧ ((ValidityMinute (mkShortenRequest "https://example.com" "" 0) ≤ 0)%Z →
       ExpiresAt link = (5 + 30 * 60000000000)%Z)
    ∧ ((0 < ValidityMinute (mkShortenRequest "https://example.com" "" 0)
        ≤ 153722867)%Z →
       ExpiresAt link
       = (5 + ValidityMinute (mkShortenRequest "https://example.com" "" 0)
              * 60000000000)%Z).
Proof.
  apply (shortenHandler_created 1 (NewStore "http://localhost:8080") _
           (mkShortenRequest "https://example.com" "" 0) 5 zeros
           (mkRand (λ _, 0) 6)); reflexivity.
Defined.

(** X12: [validity_minutes] is multiplied by [time.Minute] in [int64]
    without a bound.  For a value from 153722868 to 307445734 the product
    wraps around to a negative validity: the 201 is sent, but the stored
    record expires before it was created, and a redirect request at the
    very clock reading of its creation is answered with Gone. *)
Theorem shortenHandler_validity_wraps (fuel : nat) (store store' : Store)
    (req : ShortenRequest) (now : Time) (r r' : Rand) (resp : Response) :
  shortenHandler fuel store (Some req) now r = Some (resp, store', r') →
  status_of resp = StatusCreated →
  (153722867 < ValidityMinute req ≤ 307445734)%Z →
  ∃ link,
    Get store' (ShortCode link) = Some link
    ∧ CreatedAt link = now
    ∧ ExpiresAt link = (now + (ValidityMinute req * 60000000000 - 2 ^ 64))%Z
    ∧ (ExpiresAt link < CreatedAt link)%Z
    ∧ redirectHandler store' (ShortCode link) now
      = (httpError StatusGone "short link expired", store').
Proof.
  intros H Hst Hv.
  destruct (shortenHandler_inv _ _ _ _ _ _ _ _ H)
    as [(? & -> & _)
       |[(req0 & _ & _ & -> & _)
        |[(req0 & msg & _ & _ & _ & ->)
         |(req0 & link & [= <-] & Hu & HC & ->)]]];
    try discriminate Hst.
  apply Create_Ok_inv in HC as (_ & _ & _ & Hl & ->).
  destruct (request_validity_overflow req Hv) as [Hval Hneg].
  assert (Hget : Get (mkStore (<[ShortCode link := link]> (data store))
                              (domain store)) (ShortCode link) = Some link)
    by (unfold Get; cbn [data]; apply lookup_insert_eq).
  assert (Hexp : ExpiresAt link = (now + request_validity req)%Z)
    by (by rewrite Hl).
  assert (Hcr : CreatedAt link = now) by (by rewrite Hl).
  exists link. split; [done|]. split; [done|].
  split; [by rewrite Hexp, Hval|]. split; [lia|].
  unfold redirectHandler. rewrite Hget.
  by assert (After now (ExpiresAt link) = true) as ->
    by (apply Z.ltb_lt; lia).
Qed.

Lemma shortenHandler_validity_wraps_witness :
  ∃ link,
    Get (mkStore {[ "late" := mkLink "https://example.com" "late" 5
                                     (-9223371993709551611) 0 ]}
                 "http://localhost:8080") (ShortCode link) = Some link
    ∧ CreatedAt link = 5%Z
    ∧ ExpiresAt link = (5 + (153722868 * 60000000000 - 2 ^ 64))%Z
    ∧ (ExpiresAt link < CreatedAt link)%Z
    ∧ redirectHandler
        (mkStore {[ "late" := mkLink "https://example.com" "late" 5
                                     (-9223371993709551611) 0 ]}
                 "http://localhost:8080") (ShortCode link) 5
      = (httpError StatusGone "short link expired",
         mkStore {[ "late" := mkLink "https://example.com" "late" 5
                                     (-9223371993709551611) 0 ]}
                 "http://localhost:8080").
Proof.
  apply (shortenHandler_validity_wraps 0 (NewStore "http://localhost:8080") _
           (mkShortenRequest "https://example.com" "late" 153722868) 5 zeros
           zeros
           (writeJSON StatusCreated
              [("short_url", JString "http://localhost:8080/late");
               ("short_code", JString "late");
               ("expires_at", JTime (-9223371993709551611));
               ("long_url", JString "https://example.com")])).
  - reflexivity.
  - reflexivity.
  - cbn. lia.
Defined.

(** X13: after a 201 from [shortenHandler], a redirect request for the
    returned short code at any clock reading up to the record's expiry is
    answered with a redirect to the [url] of the shorten request, and a
    stats request after it reports that [url], the creation time, the
    expiry and one click. *)
Theorem shorten_redirect_stats (fuel : nat) (store store' : Store)
    (req : ShortenRequest) (now : Time) (r r' : Rand) (resp : Response) :
  shortenHandler fuel store (Some req) now r = Some (resp, store', r') →
  status_of resp = StatusCreated →
  ∃ code expires,
    resp = writeJSON StatusCreated
             [("short_url", JString (domain store +:+ "/" +:+ code));
              ("short_code", JString code);
              ("expires_at", JTime expires);
              ("long_url", JString (URL req))]
    ∧ ∀ t, (t ≤ expires)%Z →
           (redirectHandler store' code t).1
           = http_Redirect (URL req) StatusFound
           ∧ statsHandler (redirectHandler store' code t).2 code
             = writeJSON StatusOK
                 [("long_url", JString (URL req));
                  ("short_code", JString code);
                  ("created_at", JTime now);
                  ("expires_at", JTime expires);
                  ("clicks", JInt 1)].
Proof.
  intros H Hst.
  destruct (shortenHandler_inv _ _ _ _ _ _ _ _ H)
    as [(? & -> & _)
       |[(req0 & _ & _ & -> & _)
        |[(req0 & msg & _ & _ & _ & ->)
         |(req0 & link & [= <-] & Hu & HC & ->)]]];
    try discriminate Hst.
  apply Create_Ok_inv in HC as (_ & _ & _ & Hl & ->).
  exists (ShortCode link), (ExpiresAt link).
  split; [by rewrite Hl|]. intros t Ht.
  unfold redirectHandler, Get. cbn [data]. rewrite lookup_insert_eq.
  assert (After t (ExpiresAt link) = false) as -> by (apply Z.ltb_ge, Ht).
  cbn [fst snd]. split; [by rewrite Hl|].
  unfold statsHandler, Get.
  rewrite (Increment_present _ _ link) by apply lookup_insert_eq.
  cbn [data]. rewrite lookup_insert_eq. unfold Link_json.
  rewrite Hl. reflexivity.
Qed.

Lemma shorten_redirect_stats_witness :
  ∃ code expires,
    writeJSON StatusCreated
      [("short_url", JString "http://localhost:8080/aaaaaa");
       ("short_code", JString "aaaaaa");
       ("expires_at", JTime 1800000000005);
       ("long_url", JString "https://example.com")]
    = writeJSON StatusCreated
        [("short_url",
          JString (domain (NewStore "http://localhost:8080") +:+ "/" +:+ code));
         ("short_code", JString code);
         ("expires_at", JTime expires);
         ("long_url",
          JString (URL (mkShortenRequest "https://example.com" "" 0)))]
    ∧ ∀ t, (t ≤ expires)%Z →
           (redirectHandler
              (mkStore {[ "aaaaaa" := mkLink "https://example.com" "aaaaaa" 5
                                             1800000000005 0 ]}
                       "http://localhost:8080") code t).1
           = http_Redirect (URL (mkShortenRequest "https://example.com" "" 0))
                           StatusFound
           ∧ statsHandler
               (redirectHandler
                  (mkStore {[ "aaaaaa" := mkLink "https://example.com" "aaaaaa"
                                                 5 1800000000005 0 ]}
                           "http://localhost:8080") code t).2 code
             = writeJSON StatusOK
                 [("long_url",
                   JString (URL (mkShortenRequest "https://example.com" "" 0)));
                  ("short_code", JString code);
                  ("created_at", JTime 5);
                  ("expires_at", JTime expires);
                  ("clicks", JInt 1)].
Proof.
  apply (shorten_redirect_stats 1 (NewStore "http://localhost:8080") _
           (mkShortenRequest "https://example.com" "" 0) 5 zeros
           (mkRand (λ _, 0) 6)); reflexivity.
Defined.

(** ** The logging middleware *)

Section logging.
Context {W : Type} `{middleware.ResponseWriter W}.

(** The wrapper hands every call on to the writer it wraps, and holds the
    code of the latest [WriteHeader]. *)
Lemma ServeHTTP_responseWriter (calls : list middleware.WriterCall) :
  ∀ rw : middleware.responseWriter W,
    middleware.inner (middleware.ServeHTTP calls rw)
    = middleware.ServeHTTP calls (middleware.inner rw)
    ∧ middleware.statusCode (middleware.ServeHTTP calls rw)
      = foldl (λ acc c, match c with
                        | middleware.WriteHeaderCall code => code
                        | _ => acc
                        end) (middleware.statusCode rw) calls.
Proof.
  induction calls as [|c calls IH]; intros rw; [done|].
  unfold middleware.ServeHTTP in *. cbn [foldl].
  destruct (IH (middleware.call c rw)) as [IH1 IH2].
  rewrite IH1, IH2. by destruct c.
Qed.

(** X14: the logging middleware is transparent: the writer it was given
    receives exactly the calls the wrapped handler makes, in order.  The
    logged status is the code of the handler's last [WriteHeader] call, and
    200 for a handler that never calls it; for a handler that answers with
    [writeJSON] it is the status passed to [writeJSON].  The entry carries
    the method, request URI and remote address of the request, and, for a
    request that takes less than the largest [int64] of nanoseconds, the
    time between the two clock readings. *)
Theorem LoggingMiddleware_logs_status (next : list middleware.WriterCall)
    (w : W) (r : middleware.Request) (start finish : Time) :
  (middleware.LoggingMiddleware next w r start finish).1
  = middleware.ServeHTTP next w
  ∧ middleware.log_status
      (middleware.LoggingMiddleware next w r start finish).2
    = last_status next
  ∧ (∀ status v,
       middleware.log_status
         (middleware.LoggingMiddleware (middleware.writeJSON_calls status v)
            w r start finish).2 = status)
  ∧ middleware.log_method
      (middleware.LoggingMiddleware next w r start finish).2
    = middleware.Method r
  ∧ middleware.log_path
      (middleware.LoggingMiddleware next w r start finish).2
    = middleware.RequestURI r
  ∧ middleware.log_client
      (middleware.LoggingMiddleware next w r start finish).2
    = middleware.RemoteAddr r
  ∧ ((start ≤ finish)%Z → (finish - start ≤ MaxInt64)%Z →
     middleware.log_duration
       (middleware.LoggingMiddleware next w r start finish).2
     = (finish - start)%Z).
Proof.
  unfold middleware.LoggingMiddleware. cbn [fst snd].
  destruct (ServeHTTP_responseWriter next
              (middleware.mkResponseWriter w StatusOK)) as [Hin Hst].
  split; [exact Hin|]. split; [exact Hst|]. split; [done|].
  split; [done|]. split; [done|]. split; [done|].
  intros Hle Hmax. cbn [middleware.log_duration]. unfold middleware.Sub.
  unfold MinInt64, MaxInt64 in *. lia.
Qed.
End logging.

Lemma LoggingMiddleware_logs_status_witness :
  (middleware.LoggingMiddleware
     (middleware.writeJSON_calls StatusNotFound
        [("error", JString "short link not found")])
     ([] : list middleware.WriterCall)
     (middleware.mkRequest "GET" "/nope" "127.0.0.1:5000") 100 350).1
  = [middleware.HeaderSet "Content-Type" "application/json";
     middleware.WriteHeaderCall 404;
     middleware.WriteCall [("error", JString "short link not found")]]
  ∧ middleware.log_duration
      (middleware.LoggingMiddleware
         (middleware.writeJSON_calls StatusNotFound
            [("error", JString "short link not found")])
         ([] : list middleware.WriterCall)
         (middleware.mkRequest "GET" "/nope" "127.0.0.1:5000") 100 350).2
    = (350 - 100)%Z.
Proof.
  destruct (LoggingMiddleware_logs_status
              (middleware.writeJSON_calls StatusNotFound
                 [("error", JString "short link not found")])
              ([] : list middleware.WriterCall)
              (middleware.mkRequest "GET" "/nope" "127.0.0.1:5000") 100 350)
    as (Hcalls & _ & _ & _ & _ & _ & Hdur).
  split; [exact Hcalls|]. apply Hdur; [lia | unfold MaxInt64; lia].
Defined.

(** ** More on what [Create] takes for a URL *)

Lemma forallb_elem (p : ascii → bool) (s : string) (c : ascii) :
  Str.forallb p s = true →
  c ∈ String.list_ascii_of_string s →
  p c = true.
Proof.
  induction s as [|d s IH]; cbn [Str.forallb String.list_ascii_of_string].
  - intros _ Hc. by apply elem_of_nil in Hc.
  - intros [Hd Hs]%andb_true_iff [->|Hc]%elem_of_cons; [done | by apply IH].
Qed.

(** X15: [Create] fails with [InvalidURL], whatever its other arguments
    and the registry, for the empty string and for every long URL that
    holds an ASCII control byte (below 0x20, or 0x7f) anywhere, such as a
    line feed. *)
Theorem Create_rejects_control_bytes (fuel : nat) (s : Store)
    (longURL custom : string) (validity : Duration) (now : Time) (r : Rand) :
  (longURL = ""
   ∨ ∃ c, c ∈ String.list_ascii_of_string longURL
          ∧ ((Str.byte c < 32)%N ∨ Str.byte c = 127%N)) →
  Create fuel s longURL custom validity now r = Some (Error InvalidURL, s, r).
Proof.
  intros Hbad. apply Create_invalid.
  unfold url.ParseRequestURI, url.parse.
  destruct (url.stringContainsCTLByte longURL) eqn:Hctl; [done|].
  destruct Hbad as [->|(c & Hc & Hbyte)]; [done|].
  unfold url.stringContainsCTLByte in Hctl.
  apply negb_false_iff in Hctl.
  pose proof (forallb_elem _ _ c Hctl Hc) as Hok. cbn beta in Hok.
  apply negb_true_iff, orb_false_iff in Hok as [Hlo Heq].
  apply N.ltb_ge in Hlo. apply N.eqb_neq in Heq.
  change (Str.byte " ") with 32%N in Hlo. lia.
Qed.

Lemma Create_rejects_control_bytes_witness :
  (Str.byte "010" < 32)%N
  ∧ Create 0 store_abc (String "010" "https://example.com") "zzz" 60 5 zeros
    = Some (Error InvalidURL, store_abc, zeros).
Proof.
  split; [cbn; lia|].
  apply (Create_rejects_control_bytes 0 store_abc
           (String "010" "https://example.com") "zzz" 60 5 zeros).
  right. exists "010"%char. split; [apply elem_of_cons; by left|].
  left. cbn. lia.
Defined.

Lemma take_append (s x : string) : Str.take (String.length s) (s +:+ x) = s.
Proof.
  induction s as [|c s IH]; simpl; [done | by rewrite IH].
Qed.

Lemma drop_append_colon (s rest : string) :
  Str.drop (S (String.length s)) (s +:+ String ":" rest) = rest.
Proof.
  induction s as [|c s IH]; simpl; [by destruct rest | exact IH].
Qed.

(** [getScheme] on letters followed by a colon. *)
Lemma getScheme_from_letters (scheme : string) :
  ∀ (raw : string) (i : nat) (rest : string),
    letters scheme = true →
    0 < i + String.length scheme →
    url.getScheme_from raw i (scheme +:+ String ":" rest)
    = Some (Str.take (i + String.length scheme) raw,
            Str.drop (S (i + String.length scheme)) raw).
Proof.
  induction scheme as [|c scheme IH]; intros raw i rest Hl Hpos.
  - cbn in Hpos. rewrite Nat.add_0_r in *.
    destruct i as [|i]; [lia|]. reflexivity.
  - cbn [letters Str.forallb] in Hl. apply andb_true_iff in Hl as [Hc Hl].
    change (String c scheme +:+ String ":" rest)
      with (String c (scheme +:+ String ":" rest)).
    cbn [url.getScheme_from]. rewrite Hc.
    cbn [String.length]. rewrite Nat.add_succ_r.
    apply (IH raw (S i) rest Hl). lia.
Qed.

Lemma HasPrefix_take_false (n : nat) (s p : string) :
  Str.HasPrefix s p = false → Str.HasPrefix (Str.take n s) p = false.
Proof.
  intros Hs. destruct (Str.HasPrefix (Str.take n s) p) eqn:E; [|done].
  apply HasPrefix_take in E. congruence.
Qed.

(** A scheme of letters, a colon and a rest that does not begin with a
    slash parse as an opaque URL. *)
Lemma ParseRequestURI_opaque (scheme rest : string) :
  letters scheme = true →
  scheme ≠ "" →
  url.stringContainsCTLByte (scheme +:+ String ":" rest) = false →
  Str.HasPrefix rest "/" = false →
  ∃ u, url.ParseRequestURI (scheme +:+ String ":" rest) = Some u
       ∧ url.Scheme u = Str.ToLower scheme
       ∧ url.Host u = "".
Proof.
  intros Hl Hne Hctl Hrest.
  unfold url.ParseRequestURI, url.parse. rewrite Hctl.
  assert (String.eqb (scheme +:+ String ":" rest) "" = false) as ->.
  { apply String.eqb_neq. by destruct scheme. }
  assert (String.eqb (scheme +:+ String ":" rest) "*" = false) as ->.
  { apply String.eqb_neq. destruct scheme as [|c [|c' scheme]]; by cbn. }
  cbn [andb]. unfold url.getScheme.
  rewrite (getScheme_from_letters scheme _ 0 rest Hl)
    by (destruct scheme; [done | cbn; lia]).
  cbn [Nat.add]. rewrite take_append, drop_append_colon.
  cbn [mbind option_bind].
  assert (String.eqb (Str.ToLower scheme) "" = false) as ->.
  { apply String.eqb_neq. intros E. by apply ToLower_empty in E. }
  set (q := if Str.HasSuffixByte rest "?" && (Str.CountByte rest "?" =? 1)
            then _ else _).
  assert (Hq : Str.HasPrefix q.1.1 "/" = false).
  { subst q. destruct (_ && _); [by apply HasPrefix_take_false|].
    unfold Str.Cut. destruct (Str.Index rest "?");
      [by apply HasPrefix_take_false | done]. }
  destruct q as [[rest' rawQuery] forceQuery]. cbn [fst] in Hq.
  rewrite Hq. cbn [negb]. eexists. split; [reflexivity|]. done.
Qed.

(** X16: [Create] takes any scheme for a URL: a long URL made of a
    non-empty scheme of letters, a colon and a rest that does not begin
    with a slash (and holds no control byte) passes validation, whatever
    the scheme, so [Create] with an unused custom code stores it as
    given. *)
Theorem Create_accepts_any_scheme (fuel : nat) (s : Store)
    (scheme rest custom : string) (validity : Duration) (now : Time)
    (r : Rand) :
  letters scheme = true →
  scheme ≠ "" →
  url.stringContainsCTLByte (scheme +:+ String ":" rest) = false →
  Str.HasPrefix rest "/" = false →
  custom ≠ "" →
  data s !! custom = None →
  parseable_absolute_URI (scheme +:+ String ":" rest) = true
  ∧ Create fuel s (scheme +:+ String ":" rest) custom validity now r
    = Some (Ok (mkLink (scheme +:+ String ":" rest) custom now
                       (now + validity) 0),
            mkStore (<[custom := mkLink (scheme +:+ String ":" rest) custom now
                                        (now + validity) 0]> (data s))
                    (domain s),
            r).
Proof.
  intros Hl Hne Hctl Hrest Hcustom Hfree.
  destruct (ParseRequestURI_opaque scheme rest Hl Hne Hctl Hrest)
    as (u & Hu & Hscheme & _).
  split.
  - unfold parseable_absolute_URI, url.IsAbs. rewrite Hu, Hscheme.
    apply negb_true_iff, String.eqb_neq. intros E.
    by apply ToLower_empty in E.
  - apply Create_custom_fresh; [rewrite Hu; eauto | done | done].
Qed.

Lemma Create_accepts_any_scheme_witness :
  parseable_absolute_URI "javascript:alert(1)" = true
  ∧ Create 0 store_abc "javascript:alert(1)" "js" 60 5 zeros
    = Some (Ok (mkLink "javascript:alert(1)" "js" 5 (5 + 60) 0),
            mkStore (<["js" := mkLink "javascript:alert(1)" "js" 5 (5 + 60) 0]>
                       (data store_abc))
                    (domain store_abc),
            zeros).
Proof.
  apply (Create_accepts_any_scheme 0 store_abc "javascript" "alert(1)" "js"
           60 5 zeros); try reflexivity; discriminate.
Defined.

(** ** Which operation adds and which removes *)

Lemma dom_Increment (s : Store) (code : string) :
  dom (data (Increment s code)) = dom (data s).
Proof.
  unfold Increment. destruct (data s !! code) as [l|] eqn:Hl; [|done].
  cbn [data]. rewrite dom_insert_L.
  assert (Hin : code ∈ dom (data s)) by (apply elem_of_dom; eauto).
  apply set_eq. intros k. rewrite elem_of_union, elem_of_singleton.
  split; [intros [->|Hk]; done | auto].
Qed.

(** X17: only [Create] adds a short code to the registry and only the
    sweep removes one.  [Increment] and a redirect request leave the set
    of short codes as it was; a sweep leaves a subset of it; a successful
    [Create] adds exactly the short code of the returned link, which was
    not there before, so the registry grows by one record. *)
Theorem registry_short_codes (s : Store) (code : string) (now : Time) :
  dom (data (Increment s code)) = dom (data s)
  ∧ dom (data (redirectHandler s code now).2) = dom (data s)
  ∧ dom (data (CleanupExpired_round now s)) ⊆ dom (data s)
  ∧ ∀ fuel longURL custom validity r l s' r',
      Create fuel s longURL custom validity now r = Some (Ok l, s', r') →
      (ShortCode l ∉ dom (data s))
      ∧ dom (data s') = {[ ShortCode l ]} ∪ dom (data s)
      ∧ size (data s') = S (size (data s)).
Proof.
  split; [apply dom_Increment|]. split; [|split].
  - unfold redirectHandler. destruct (Get s code) as [l|]; [|done].
    destruct (After now (ExpiresAt l)); [done | apply dom_Increment].
  - intros k Hk. apply elem_of_dom in Hk as [l Hl]. apply elem_of_dom.
    rewrite CleanupExpired_round_lookup in Hl.
    destruct (data s !! k); [eauto | discriminate].
  - intros fuel longURL custom validity r l s' r' H.
    apply Create_Ok_inv in H as (_ & Hfree & _ & _ & ->). cbn [data].
    split; [by apply not_elem_of_dom|].
    split; [apply dom_insert_L | by apply map_size_insert_None].
Qed.

Lemma registry_short_codes_witness :
  Create 0 store_abc "https://example.org/x" "xyz" 60 5 zeros
  = Some (Ok (mkLink "https://example.org/x" "xyz" 5 65 0),
          mkStore (<["xyz" := mkLink "https://example.org/x" "xyz" 5 65 0]>
                     (data store_abc)) (domain store_abc),
          zeros)
  ∧ size (<["xyz" := mkLink "https://example.org/x" "xyz" 5 65 0]>
            (data store_abc))
    = S (size (data store_abc)).
Proof.
  assert (H : Create 0 store_abc "https://example.org/x" "xyz" 60 5 zeros
              = Some (Ok (mkLink "https://example.org/x" "xyz" 5 65 0),
                      mkStore (<["xyz" := mkLink "https://example.org/x" "xyz"
                                                 5 65 0]> (data store_abc))
                              (domain store_abc),
                      zeros)) by reflexivity.
  split; [exact H|].
  destruct (registry_short_codes store_abc "abc" 5) as (_ & _ & _ & Hcreate).
  exact (proj2 (proj2 (Hcreate _ _ _ _ _ _ _ _ H))).
Defined.

(** ** The click counter over a run of the server *)







